(** * Excel upload: conversion to a quiz document and publication

    A shallow embedding of the serverless upload function
    (handler, convertExcelToQuiz, saveQuizToRepo) and the properties of
    the conversion, of the filename derivation and of the index update.

    JavaScript strings are sequences of UTF-16 code units; they are
    modelled as lists of [N].  The built-ins the program calls
    (String.prototype.trim, split, replace with the three regular
    expressions of the source, toLowerCase) are written out on that
    representation. *)

From Stdlib Require Import NArith ZArith List Bool Lia.
From Stdlib Require Import Strings.String Strings.Ascii Numbers.DecimalString.
From stdpp Require Import base list.

Local Open Scope N_scope.

(** ** Strings *)

Abbreviation jsstring := (list N).

(** An ASCII literal as a sequence of code units. *)
Fixpoint lit (s : string) : jsstring :=
  match s with
  | EmptyString => []
  | String c s' => N_of_ascii c :: lit s'
  end.

(** WhiteSpace and LineTerminator code points: what [trim] removes and
    what the class escape \s matches. *)
Definition is_space (c : N) : bool :=
  (c =? 0x09) || (c =? 0x0a) || (c =? 0x0b) || (c =? 0x0c) || (c =? 0x0d)
  || (c =? 0x20) || (c =? 0xa0) || (c =? 0x1680)
  || ((0x2000 <=? c) && (c <=? 0x200a))
  || (c =? 0x2028) || (c =? 0x2029) || (c =? 0x202f) || (c =? 0x205f)
  || (c =? 0x3000) || (c =? 0xfeff).

Definition is_lower (c : N) : bool := (0x61 <=? c) && (c <=? 0x7a).
Definition is_upper (c : N) : bool := (0x41 <=? c) && (c <=? 0x5a).
Definition is_digit (c : N) : bool := (0x30 <=? c) && (c <=? 0x39).
Definition hyphen : N := 0x2d.
Definition comma : N := 0x2c.

Fixpoint trimStart (s : jsstring) : jsstring :=
  match s with
  | [] => []
  | c :: s' => if is_space c then trimStart s' else s
  end.

Definition trimEnd (s : jsstring) : jsstring := rev (trimStart (rev s)).

Definition trim (s : jsstring) : jsstring := trimEnd (trimStart s).

(** [s.split(sep)] for a one-character separator: the empty string
    splits into one empty segment. *)
Fixpoint js_split (sep : N) (s : jsstring) : list jsstring :=
  match s with
  | [] => [[]]
  | c :: s' =>
      if c =? sep then [] :: js_split sep s'
      else match js_split sep s' with
           | seg :: segs => (c :: seg) :: segs
           | [] => [[c]]
           end
  end.

(** Case folding of a case-insensitive regular expression without the
    unicode flag, on the ASCII letters.  A code unit outside ASCII never
    folds to an ASCII letter (the Canonicalize rule keeps it when its
    upper case would be ASCII), so comparing against the folded ASCII
    letters of a pattern gives the same verdict as the full rule. *)
Definition canonicalize (c : N) : N := if is_lower c then c - 0x20 else c.

(** A literal pattern matched case-insensitively at the start of [s]. *)
Fixpoint starts_with_ci (pat s : jsstring) : bool :=
  match pat, s with
  | [], _ => true
  | _ :: _, [] => false
  | p :: pat', c :: s' =>
      (canonicalize p =? canonicalize c) && starts_with_ci pat' s'
  end.

(** [toLowerCase] on the ASCII range.  saveQuizToRepo applies it to a
    string already reduced to ASCII letters, digits and hyphens (lemma
    [sanitized_chars] below), where it agrees with the built-in. *)
Definition toLowerCase (s : jsstring) : jsstring :=
  map (fun c => if is_upper c then c + 0x20 else c) s.

(** Decimal rendering of a non-negative integer, as a template literal
    prints a count. *)
Definition nat_toString (n : nat) : jsstring :=
  lit (NilEmpty.string_of_uint (Nat.to_uint n)).

(** ** Cells and rows

    sheet_to_json with header:1 yields one array per row whose entries are
    strings, numbers, booleans, or missing (a hole, an index past the end,
    or null: the program treats them alike).  The program uses a number
    only through ToBoolean and Number.prototype.toString, which are kept
    as an interface. *)

Class JsNumber (number : Type) := {
  number_truthy : number -> bool;
  number_toString : number -> jsstring
}.

Inductive cell (number : Type) : Type :=
| CString (s : jsstring)
| CNumber (n : number)
| CBoolean (b : bool)
| CAbsent.

Arguments CString {number} s.
Arguments CNumber {number} n.
Arguments CBoolean {number} b.
Arguments CAbsent {number}.

Abbreviation row number := (list (cell number)).

(** ** The quiz document *)

Record question := {
  question_number : nat;
  question_text : jsstring;
  answer : jsstring;
  accept : option (list jsstring)
}.

Record player := {
  player_number : nat;
  questions : list question
}.

Record round := {
  round_number : nat;
  round_name : jsstring;
  players : list player
}.

Record metadata := {
  title : jsstring;
  source : jsstring;
  date : jsstring;
  metadata_rounds : nat
}.

Record quiz := {
  quiz_metadata : metadata;
  rounds : list round
}.

(** ** convertExcelToQuiz *)

Section Converter.
Context {number : Type} `{JsNumber number}.

(** ToBoolean of a cell value. *)
Definition truthy (c : cell number) : bool :=
  match c with
  | CString s => negb (length s =? 0)%nat
  | CNumber n => number_truthy n
  | CBoolean b => b
  | CAbsent => false
  end.

(** [x.toString()]; undefined for a missing cell, where the call is
    short-circuited by [?.] or guarded by a truthiness test. *)
Definition cell_toString (c : cell number) : option jsstring :=
  match c with
  | CString s => Some s
  | CNumber n => Some (number_toString n)
  | CBoolean b => Some (lit (if b then "true" else "false"))
  | CAbsent => None
  end.

(** [x?.toString().trim()] *)
Definition stringify_trim (c : cell number) : option jsstring :=
  trim <$> cell_toString c.

(** ToBoolean of a string-or-undefined. *)
Definition text_truthy (o : option jsstring) : bool :=
  match o with
  | Some (_ :: _) => true
  | _ => false
  end.

(** [row[k]] *)
Definition row_at (r : row number) (k : nat) : cell number := nth k r CAbsent.

(** /^(question|answer|q|a)/i.test(s) *)
Definition header_pattern : list jsstring :=
  [lit "question"; lit "answer"; lit "q"; lit "a"].

Definition header_regex_test (s : jsstring) : bool :=
  existsb (fun alt => starts_with_ci alt s) header_pattern.

(** The callback of [firstRow.some]. *)
Definition header_cell (c : cell number) : bool :=
  match c with
  | CString s => header_regex_test (trim s)
  | _ => false
  end.

Definition hasHeaders (firstRow : row number) : bool :=
  existsb header_cell firstRow.

Definition startIndex (data : list (row number)) : nat :=
  match data with
  | [] => 0
  | firstRow :: _ => if hasHeaders firstRow then 1 else 0
  end.

(** The first guard of the loop body, "skip empty rows".  A row is an
    array, hence never falsy: the [!row] disjunct is constantly false. *)
Definition empty_row (r : row number) : bool :=
  false || (length r =? 0)%nat
  || (negb (truthy (row_at r 0)) && negb (truthy (row_at r 1))).

(** Column C: the alternatives, and the [accept] field they give. *)
Definition alternatives (s : jsstring) : list jsstring :=
  List.filter (fun alt => (0 <? length alt)%nat) (map trim (js_split comma s)).

Definition accept_of (c : cell number) : option (list jsstring) :=
  if truthy c then
    match cell_toString c with
    | Some s =>
        let alts := alternatives s in
        if (0 <? length alts)%nat then Some alts else None
    | None => None
    end
  else None.

(** One iteration of the loop: [qs] is the array built so far. *)
Definition process_row (qs : list question) (r : row number) : list question :=
  if empty_row r then qs
  else
    let questionText := stringify_trim (row_at r 0) in
    let answerText := stringify_trim (row_at r 1) in
    if negb (text_truthy questionText) || negb (text_truthy answerText) then qs
    else
      match questionText, answerText with
      | Some q, Some a =>
          qs ++ [ {| question_number := length qs + 1;
                     question_text := q;
                     answer := a;
                     accept := accept_of (row_at r 2) |} ]
      | _, _ => qs
      end.

(** The loop from [startIndex] to the end of [data]. *)
Definition parse_rows (rows : list (row number)) : list question :=
  fold_left process_row rows [].

(** The two reads of the clock are the arguments [day1] and [day2],
    each already cut to its YYYY-MM-DD part. *)
Definition convertExcelToQuiz (day1 day2 : jsstring)
    (data : list (row number)) (title : jsstring) : quiz :=
  let questions := parse_rows (drop (startIndex data) data) in
  {| quiz_metadata :=
       {| title := title;
          source := lit "excel_upload_" ++ day1;
          date := day2;
          metadata_rounds := 1 |};
     rounds :=
       [ {| round_number := 1;
            round_name := title;
            players := [ {| player_number := 1; questions := questions |} ] |} ] |}.

End Converter.

(** Integer-valued numeric cells: ToBoolean is "not zero", toString prints
    the decimal digits. *)
#[export] Instance int_JsNumber : JsNumber Z := {|
  number_truthy z := negb (z =? 0)%Z;
  number_toString z := lit (NilEmpty.string_of_int (Z.to_int z))
|}.

(** ** The quiz index *)

Record index_entry := {
  name : jsstring;
  file : jsstring;
  description : jsstring
}.

#[export] Instance index_entry_eq_dec : EqDecision index_entry.
Proof. solve_decision. Defined.

Record quiz_index := { quizzes : list index_entry }.

(** ** Filename derivation (saveQuizToRepo, "Create filename from quiz title") *)

(** Membership in the class [a-z0-9\s-] under the flag i. *)
Definition filename_class (c : N) : bool :=
  is_lower c || is_upper c || is_digit c || is_space c || (c =? hyphen).

(** [.replace(/[^a-z0-9\s-]/gi, '')] *)
Definition strip_unsafe (s : jsstring) : jsstring := List.filter filename_class s.

(** [.replace(/\s+/g, '-')]: every maximal run of whitespace becomes one
    hyphen.  [in_run] tells that the previous code unit was whitespace. *)
Fixpoint hyphenate_from (in_run : bool) (s : jsstring) : jsstring :=
  match s with
  | [] => []
  | c :: s' =>
      if is_space c then
        if in_run then hyphenate_from true s' else hyphen :: hyphenate_from true s'
      else c :: hyphenate_from false s'
  end.

Definition hyphenate (s : jsstring) : jsstring := hyphenate_from false s.

Definition derive_filename (quizTitle : jsstring) : jsstring :=
  toLowerCase (hyphenate (strip_unsafe quizTitle)).

Definition quizPath_of (filename : jsstring) : jsstring :=
  lit "public/data/quizzes/" ++ filename ++ lit ".json".

Definition quizUrl_of (filename : jsstring) : jsstring :=
  lit "/data/quizzes/" ++ filename ++ lit ".json".

(** ** Counting questions and updating the index *)

(** The nested [reduce] of saveQuizToRepo. *)
Definition totalQuestions (quizData : quiz) : nat :=
  fold_left
    (fun total rnd =>
       total + fold_left (fun roundTotal p => roundTotal + length (questions p))
                         (players rnd) 0)%nat
    (rounds quizData) 0%nat.

(** [arr.findIndex(pred)]: the first position whose element satisfies
    [pred], [None] standing for -1. *)
Fixpoint findIndex {A} (pred : A -> bool) (arr : list A) : option nat :=
  match arr with
  | [] => None
  | x :: arr' => if pred x then Some 0%nat else S <$> findIndex pred arr'
  end.

Definition newEntry (quizTitle filename : jsstring) (total : nat) : index_entry :=
  {| name := quizTitle;
     file := quizUrl_of filename;
     description := lit "1 round, " ++ nat_toString total ++ lit " questions" |}.

(** "Add new quiz to index (or update if exists)". *)
Definition upsert_entry (entry : index_entry) (qs : list index_entry) : list index_entry :=
  match findIndex (fun q => bool_decide (file q = file entry)) qs with
  | Some existingIndex => <[existingIndex := entry]> qs
  | None => qs ++ [entry]
  end.

(** ** The remote store and the publish sequence *)

Inductive exn := Throw (message : jsstring).

Definition exn_message (e : exn) : jsstring := let 'Throw m := e in m.

Inductive blob := QuizBlob (q : quiz) | IndexBlob (i : quiz_index).

Record tree_entry := {
  te_path : jsstring;
  te_mode : jsstring;
  te_type : jsstring;
  te_sha : jsstring
}.

(** The requests saveQuizToRepo sends, with the arguments it passes.  A
    blob stands for the base64 text of its pretty-printed JSON. *)
Inductive call :=
| GetRef (owner repo ref : jsstring)
| GetCommit (owner repo commit_sha : jsstring)
| GetContent (owner repo path ref : jsstring)
| CreateBlob (owner repo : jsstring) (content : blob)
| CreateTree (owner repo base_tree : jsstring) (tree : list tree_entry)
| CreateCommit (owner repo message tree : jsstring) (parents : list jsstring)
| UpdateRef (owner repo ref sha : jsstring).

(** What decoding and [JSON.parse] make of the fetched index file. *)
Inductive parsed_index :=
| ParseThrows
| NoQuizzesArray
| ParsedIndex (i : quiz_index).

(** The world outside the function: the remote store answers a request,
    given the requests made before it, with the string the code reads
    from the reply (a sha, or the file content) or with a rejection. *)
Record world := {
  octokit : list call -> call -> exn + jsstring;
  parse_index : jsstring -> parsed_index
}.

(** Computations that may throw and that log the requests they send. *)
Definition io (A : Type) : Type := list call -> (exn + A) * list call.

Definition ret {A} (a : A) : io A := fun log => (inr a, log).
Definition throw {A} (e : exn) : io A := fun log => (inl e, log).
Definition bind {A B} (m : io A) (k : A -> io B) : io B :=
  fun log => match m log with
             | (inr a, log') => k a log'
             | (inl e, log') => (inl e, log')
             end.
Definition try_catch {A} (m : io A) (h : exn -> io A) : io A :=
  fun log => match m log with
             | (inr a, log') => (inr a, log')
             | (inl e, log') => h e log'
             end.

#[export] Instance io_ret : MRet io := @ret.
#[export] Instance io_bind : MBind io := fun A B k m => bind m k.

(** [await octokit....(args)] *)
Definition request (w : world) (c : call) : io jsstring :=
  fun log => (octokit w log c, log ++ [c]).

(** [await Promise.all([a, b])] for two requests: both are sent, then a
    rejection, if any, is thrown (of the first in the array when both
    reject). *)
Definition request_both (w : world) (c1 c2 : call) : io (jsstring * jsstring) :=
  fun log =>
    let r1 := octokit w log c1 in
    let r2 := octokit w (log ++ [c1]) c2 in
    (match r1, r2 with
     | inr a, inr b => inr (a, b)
     | inl e, _ => inl e
     | _, inl e => inl e
     end, log ++ [c1; c2]).

Record env := {
  GITHUB_TOKEN : option jsstring;
  GITHUB_OWNER : option jsstring;
  VERCEL_GIT_REPO_OWNER : option jsstring;
  GITHUB_REPO : option jsstring;
  VERCEL_GIT_REPO_SLUG : option jsstring;
  GITHUB_BRANCH : option jsstring
}.

(** ToBoolean of an environment variable or of a string-or-undefined. *)
Definition set (o : option jsstring) : bool :=
  match o with
  | Some (_ :: _) => true
  | _ => false
  end.

(** [a || b] *)
Definition or_else (a b : option jsstring) : option jsstring :=
  if set a then a else b.

(** [a || 'literal'] *)
Definition or_literal (a : option jsstring) (d : jsstring) : jsstring :=
  match a with
  | Some ((_ :: _) as s) => s
  | _ => d
  end.

Record save_result := {
  quizPath : jsstring;
  commitSha : jsstring;
  quizUrl : jsstring
}.

Definition not_configured : exn :=
  Throw (lit "GitHub repository not configured. Set GITHUB_OWNER and GITHUB_REPO environment variables.").

Definition index_path : jsstring := lit "public/data/quiz-index.json".

Definition saveQuizToRepo (e : env) (w : world) (quizData : quiz) (quizTitle : jsstring)
    : io save_result :=
  let owner := or_else (GITHUB_OWNER e) (VERCEL_GIT_REPO_OWNER e) in
  let repo := or_else (GITHUB_REPO e) (VERCEL_GIT_REPO_SLUG e) in
  let branch := or_literal (GITHUB_BRANCH e) (lit "main") in
  match owner, repo with
  | Some ((_ :: _) as owner), Some ((_ :: _) as repo) =>
      let filename := derive_filename quizTitle in
      let quizPath := quizPath_of filename in
      currentCommitSha ← request w (GetRef owner repo (lit "heads/" ++ branch));
      currentTreeSha ← request w (GetCommit owner repo currentCommitSha);
      parsed ← try_catch
                  (indexContent ← request w (GetContent owner repo index_path branch);
                   match parse_index w indexContent with
                   | ParseThrows => throw (Throw (lit "SyntaxError"))
                   | p => ret p
                   end)
                  (fun _ => ret (ParsedIndex {| quizzes := [] |}));
      let total := totalQuestions quizData in
      match parsed with
      | ParsedIndex quizIndex =>
          let quizIndex' :=
            {| quizzes := upsert_entry (newEntry quizTitle filename total) (quizzes quizIndex) |} in
          blobs ← request_both w (CreateBlob owner repo (QuizBlob quizData))
                                  (CreateBlob owner repo (IndexBlob quizIndex'));
          newTree ← request w
            (CreateTree owner repo currentTreeSha
               [ {| te_path := quizPath; te_mode := lit "100644";
                    te_type := lit "blob"; te_sha := fst blobs |};
                 {| te_path := index_path; te_mode := lit "100644";
                    te_type := lit "blob"; te_sha := snd blobs |} ]);
          newCommit ← request w
            (CreateCommit owner repo (lit "Add quiz: " ++ quizTitle) newTree [currentCommitSha]);
          _ ← request w (UpdateRef owner repo (lit "heads/" ++ branch) newCommit);
          ret {| quizPath := quizPath; commitSha := newCommit; quizUrl := quizUrl_of filename |}
      | _ => throw (Throw (lit "TypeError"))
      end
  | _, _ => throw not_configured
  end.

(** ** The request handler *)

Record upload := {
  filepath : jsstring;
  originalFilename : option jsstring
}.

(** The result of [form.parse]: each field or file name maps to an array. *)
Record form_data := {
  fields_title : option (list jsstring);
  files_file : option (list upload)
}.

Record incoming := {
  method : jsstring;
  form_parse : exn + form_data
}.

Inductive body :=
| ErrorBody (error : jsstring) (message : option jsstring)
| QuizBody (success : bool) (quizData : quiz) (saved : bool)
           (quizFilePath : option jsstring) (message : jsstring).

Record response := {
  status : nat;
  json : body
}.

Definition ends_with_ci (suffix s : jsstring) : bool :=
  starts_with_ci (rev suffix) (rev s).

(** [.replace(/\.(xlsx?|csv)$/i, '')]: the pattern is anchored at the end
    of the input, so at most one of the three suffixes matches and it is
    cut off. *)
Definition strip_extension (s : jsstring) : jsstring :=
  if ends_with_ci (lit ".xlsx") s then take (length s - 5) s
  else if ends_with_ci (lit ".xls") s then take (length s - 4) s
  else if ends_with_ci (lit ".csv") s then take (length s - 4) s
  else s.

(** "Get quiz title from fields or use filename". *)
Definition quizTitle_of (form : form_data) (uploadedFile : upload) : jsstring :=
  or_literal
    (or_else (fields_title form ≫= head)
             (strip_extension <$> originalFilename uploadedFile))
    (lit "Untitled Quiz").

Definition saved_message (saved : bool) : jsstring :=
  if saved then lit "Quiz saved to repository successfully"
  else lit "Quiz parsed successfully (download to save manually)".

Section Handler.
Context {number : Type} `{JsNumber number}.

(** [readSheet] stands for XLSX.readFile followed by sheet_to_json on
    the first sheet; [day1] and [day2] are the two reads of the clock.
    The result pairs the response with the requests sent to the remote
    store. *)
Definition handler (e : env) (w : world)
    (readSheet : jsstring -> exn + list (row number)) (day1 day2 : jsstring)
    (req : incoming) : response * list call :=
  if negb (bool_decide (method req = lit "POST")) then
    ({| status := 405; json := ErrorBody (lit "Method not allowed") None |}, [])
  else
    let failed err :=
      ({| status := 500;
          json := ErrorBody (lit "Failed to process Excel file") (Some (exn_message err)) |},
       []) in
    match form_parse req with
    | inl err => failed err
    | inr form =>
        match files_file form ≫= head with
        | None => ({| status := 400; json := ErrorBody (lit "No file uploaded") None |}, [])
        | Some uploadedFile =>
            match readSheet (filepath uploadedFile) with
            | inl err => failed err
            | inr data =>
                let quizTitle := quizTitle_of form uploadedFile in
                let quizData := convertExcelToQuiz day1 day2 data quizTitle in
                let '(saved, quizFilePath, log) :=
                  if set (GITHUB_TOKEN e) then
                    match saveQuizToRepo e w quizData quizTitle [] with
                    | (inr saveResult, log) => (true, Some (quizPath saveResult), log)
                    | (inl saveError, log) => (false, None, log)
                    end
                  else (false, None, []) in
                ({| status := 200;
                    json := QuizBody true quizData saved quizFilePath (saved_message saved) |},
                 log)
            end
        end
    end.

End Handler.

(** ** Notions used in the statements *)

Section ConverterNotions.
Context {number : Type} `{JsNumber number}.

(** "Empty or absent" for the result of stringify-and-trim. *)
Definition blank (o : option jsstring) : Prop := o = None \/ o = Some [].

(** The two [continue] guards of the loop body taken together. *)
Definition skipped (r : row number) : bool :=
  empty_row r
  || negb (text_truthy (stringify_trim (row_at r 0)))
  || negb (text_truthy (stringify_trim (row_at r 1))).

(** Numbers follow positions: the invariant of the loop. *)
Definition numbered (qs : list question) : Prop :=
  map question_number qs = seq 1 (length qs).

(** A valid row in the words of the specification: its first and its
    second cell are both non-empty after stringify-and-trim. *)
Definition valid_row (r : row number) : bool :=
  text_truthy (stringify_trim (row_at r 0)) && text_truthy (stringify_trim (row_at r 1)).

(** A cell that holds text or nothing. *)
Definition textual (c : cell number) : Prop :=
  match c with CString _ | CAbsent => True | _ => False end.

End ConverterNotions.

(** All questions of a document, in order. *)
Definition all_questions (q : quiz) : list question :=
  concat (map questions (concat (map players (rounds q)))).

(** What a derived filename is made of. *)
Definition safe (c : N) : bool := is_lower c || is_digit c || (c =? hyphen).

(** "Café Quiz!", with é as the single code unit U+00E9. *)
Definition cafe_accent_quiz : jsstring := lit "Caf" ++ [0xe9] ++ lit " Quiz!".

(** One of the three extensions, in any mix of upper and lower case. *)
Definition is_extension (ext : jsstring) : Prop :=
  map canonicalize ext = map canonicalize (lit ".xlsx")
  \/ map canonicalize ext = map canonicalize (lit ".xls")
  \/ map canonicalize ext = map canonicalize (lit ".csv").

Definition owner_of (e : env) : option jsstring :=
  or_else (GITHUB_OWNER e) (VERCEL_GIT_REPO_OWNER e).

Definition repo_of (e : env) : option jsstring :=
  or_else (GITHUB_REPO e) (VERCEL_GIT_REPO_SLUG e).

(** The quizzes the update starts from: those of the fetched index, or
    none when the file could not be fetched or parsed. *)
Definition fetched_quizzes (p : parsed_index) : list index_entry :=
  match p with
  | ParsedIndex i => quizzes i
  | _ => []
  end.

(** ** Sample inputs *)

Definition env_configured : env :=
  {| GITHUB_TOKEN := Some (lit "ghp_token");
     GITHUB_OWNER := Some (lit "owner");
     VERCEL_GIT_REPO_OWNER := None;
     GITHUB_REPO := Some (lit "quiz");
     VERCEL_GIT_REPO_SLUG := None;
     GITHUB_BRANCH := None |}.

Definition env_no_owner : env :=
  {| GITHUB_TOKEN := Some (lit "ghp_token");
     GITHUB_OWNER := None;
     VERCEL_GIT_REPO_OWNER := Some [];
     GITHUB_REPO := Some (lit "quiz");
     VERCEL_GIT_REPO_SLUG := None;
     GITHUB_BRANCH := None |}.

Definition env_no_token : env :=
  {| GITHUB_TOKEN := None;
     GITHUB_OWNER := Some (lit "owner");
     VERCEL_GIT_REPO_OWNER := None;
     GITHUB_REPO := Some (lit "quiz");
     VERCEL_GIT_REPO_SLUG := None;
     GITHUB_BRANCH := None |}.

(** A store that answers every request, and has no index file yet. *)
Definition world_up : world :=
  {| octokit := fun _ _ => inr (lit "0a1b2c");
     parse_index := fun _ => ParseThrows |}.

(** A store that rejects every request. *)
Definition world_down : world :=
  {| octokit := fun _ _ => inl (Throw (lit "Bad credentials"));
     parse_index := fun _ => ParseThrows |}.

Definition empty_quiz : quiz :=
  convertExcelToQuiz (number := Z) (lit "2024-05-01") (lit "2024-05-01") [] (lit "???").

Definition sample_upload : upload :=
  {| filepath := lit "/tmp/upload_1"; originalFilename := Some (lit "demo.xlsx") |}.

Definition sample_form : form_data :=
  {| fields_title := Some [lit "Demo"]; files_file := Some [sample_upload] |}.

Definition sample_request : incoming :=
  {| method := lit "POST";
     form_parse := inr sample_form |}.

Definition sample_rows : list (row Z) :=
  [ [CString (lit "Capital of France?"); CString (lit "Paris")];
    [CString (lit "2 + 2?"); CNumber 4%Z; CString (lit "four, IV")] ].

Definition sample_sheet (path : jsstring) : exn + list (row Z) := inr sample_rows.

Definition sample_quiz : quiz :=
  convertExcelToQuiz (lit "2024-05-01") (lit "2024-05-01") sample_rows (lit "Demo").

(** A store that answers every request but refuses to move the branch. *)
Definition world_ref_rejected : world :=
  {| octokit := fun _ c =>
       match c with
       | UpdateRef _ _ _ _ => inl (Throw (lit "Update is not a fast forward"))
       | _ => inr (lit "0a1b2c")
       end;
     parse_index := fun _ => ParseThrows |}.

(** A store whose index file parses to something without a quizzes array. *)
Definition world_bad_index : world :=
  {| octokit := fun _ _ => inr (lit "0a1b2c");
     parse_index := fun _ => NoQuizzesArray |}.

(** ** The parse-only upload function

    The earlier version of the handler: the same checks and the same
    conversion, no publication. *)

Inductive parsed_body :=
| ParseFailure (error : jsstring) (message : option jsstring)
| Parsed (success : bool) (quizData : quiz) (message : jsstring).

Record parsed_response := {
  parsed_status : nat;
  parsed_json : parsed_body
}.

Section ParseOnlyHandler.
Context {number : Type} `{JsNumber number}.

Definition handler_parse_only
    (readSheet : jsstring -> exn + list (row number)) (day1 day2 : jsstring)
    (req : incoming) : parsed_response :=
  if negb (bool_decide (method req = lit "POST")) then
    {| parsed_status := 405; parsed_json := ParseFailure (lit "Method not allowed") None |}
  else
    let failed err :=
      {| parsed_status := 500;
         parsed_json :=
           ParseFailure (lit "Failed to process Excel file") (Some (exn_message err)) |} in
    match form_parse req with
    | inl err => failed err
    | inr form =>
        match files_file form ≫= head with
        | None =>
            {| parsed_status := 400; parsed_json := ParseFailure (lit "No file uploaded") None |}
        | Some uploadedFile =>
            match readSheet (filepath uploadedFile) with
            | inl err => failed err
            | inr data =>
                let quizTitle := quizTitle_of form uploadedFile in
                let quizData := convertExcelToQuiz day1 day2 data quizTitle in
                {| parsed_status := 200;
                   parsed_json := Parsed true quizData (lit "Quiz parsed successfully") |}
            end
        end
    end.

End ParseOnlyHandler.

(** ** The flashcard application (QuizApp) *)

(** A card: the question's own fields, spread after the three tags. *)
Record card := {
  card_round : nat;
  card_roundName : jsstring;
  card_player : nat;
  card_question : question
}.

(** prepareCards: the three nested [forEach] loops pushing onto [allCards]. *)
Definition prepareCards (currentQuiz : quiz) : list card :=
  fold_left
    (fun cards rnd =>
       fold_left
         (fun cards p =>
            fold_left
              (fun cards q =>
                 cards ++ [ {| card_round := round_number rnd;
                               card_roundName := round_name rnd;
                               card_player := player_number p;
                               card_question := q |} ])
              (questions p) cards)
         (players rnd) cards)
    (rounds currentQuiz) [].

(** The fields of the application that navigation reads and writes; the
    two [disabled] flags are those of the previous and next buttons. *)
Record app := {
  allCards : list card;
  currentCardIndex : nat;
  isFlipped : bool;
  prevDisabled : bool;
  nextDisabled : bool
}.

(** displayCard: nothing happens without cards; otherwise the card at the
    current index is read ([None] stands for the TypeError of reading a
    field of undefined), the question side is shown and the buttons are
    updated. *)
Definition displayCard (a : app) : option app :=
  if (length (allCards a) =? 0)%nat then Some a
  else
    match allCards a !! currentCardIndex a with
    | None => None
    | Some _ =>
        Some {| allCards := allCards a;
                currentCardIndex := currentCardIndex a;
                isFlipped := false;
                prevDisabled := (currentCardIndex a =? 0)%nat;
                nextDisabled :=
                  (Z.of_nat (currentCardIndex a) =? Z.of_nat (length (allCards a)) - 1)%Z |}
    end.

Definition set_index (a : app) (i : nat) : app :=
  {| allCards := allCards a; currentCardIndex := i; isFlipped := isFlipped a;
     prevDisabled := prevDisabled a; nextDisabled := nextDisabled a |}.

Definition previousCard (a : app) : option app :=
  if (0 <? currentCardIndex a)%nat
  then displayCard (set_index a (currentCardIndex a - 1))
  else Some a.

Definition nextCard (a : app) : option app :=
  if (Z.of_nat (currentCardIndex a) <? Z.of_nat (length (allCards a)) - 1)%Z
  then displayCard (set_index a (currentCardIndex a + 1))
  else Some a.

Definition flipCard (a : app) : app :=
  {| allCards := allCards a; currentCardIndex := currentCardIndex a;
     isFlipped := negb (isFlipped a);
     prevDisabled := prevDisabled a; nextDisabled := nextDisabled a |}.

(** loadQuiz once the quiz file has been fetched and parsed. *)
Definition loadQuiz (currentQuiz : quiz) (a : app) : option app :=
  displayCard
    {| allCards := prepareCards currentQuiz; currentCardIndex := 0;
       isFlipped := isFlipped a;
       prevDisabled := prevDisabled a; nextDisabled := nextDisabled a |}.

(** The state the constructor leaves, the buttons being as the page has
    them. *)
Definition new_app (prev next : bool) : app :=
  {| allCards := []; currentCardIndex := 0; isFlipped := false;
     prevDisabled := prev; nextDisabled := next |}.

(** What the listeners react to: the two buttons or arrow keys, a click
    on the card (or Space, Enter), and a quiz arriving. *)
Inductive event :=
| Previous
| Next
| Flip
| Loaded (currentQuiz : quiz).

Definition react (a : app) (ev : event) : option app :=
  match ev with
  | Previous => previousCard a
  | Next => nextCard a
  | Flip => Some (flipCard a)
  | Loaded q => loadQuiz q a
  end.

Fixpoint run (evs : list event) (a : app) : option app :=
  match evs with
  | [] => Some a
  | ev :: evs' => react a ev ≫= run evs'
  end.

(** streamText: [text.split(/\s+/)] cuts the text at every maximal run of
    whitespace; a run at either end leaves an empty word there. *)
Fixpoint words_from (in_run : bool) (text : jsstring) : list jsstring :=
  match text with
  | [] => [[]]
  | c :: text' =>
      if is_space c then
        if in_run then words_from true text' else [] :: words_from true text'
      else
        match words_from false text' with
        | w :: ws => (c :: w) :: ws
        | [] => [[c]]
        end
  end.

Definition words (text : jsstring) : list jsstring := words_from false text.

Inductive node :=
| WordSpan (textContent : jsstring) (animationDelay_ms : nat)
| TextNode (data : jsstring).

Definition node_text (n : node) : jsstring :=
  match n with
  | WordSpan t _ => t
  | TextNode t => t
  end.

(** The children appended to the element: one span per word, delayed by
    its index times 60000 / 400 ms, and a space after each but the last. *)
Fixpoint stream_nodes (index : nat) (ws : list jsstring) : list node :=
  match ws with
  | [] => []
  | [w] => [WordSpan w (index * (60 * 1000 / 400))]
  | w :: ws' =>
      WordSpan w (index * (60 * 1000 / 400)) :: TextNode (lit " ")
      :: stream_nodes (S index) ws'
  end.

Definition streamText (text : jsstring) : list node := stream_nodes 0 (words text).

(** ** Choosing a voice (QuizApp.selectBestVoice) *)

Record voice := {
  voice_name : jsstring;
  voice_lang : jsstring
}.

(** [s.startsWith(prefix)] *)
Fixpoint startsWith (prefix s : jsstring) : bool :=
  match prefix, s with
  | [], _ => true
  | _ :: _, [] => false
  | p :: prefix', c :: s' => (p =? c) && startsWith prefix' s'
  end.

(** [s.includes(part)] *)
Fixpoint includes (part s : jsstring) : bool :=
  startsWith part s
  || match s with
     | [] => false
     | _ :: s' => includes part s'
     end.

Definition preferred_names : list jsstring :=
  [ lit "Google UK English Male";
    lit "Google US English Male";
    lit "Microsoft David - English (United States)";
    lit "Microsoft George - English (United Kingdom)";
    lit "Daniel";
    lit "Alex" ].

(** The loop over [preferredVoices]: a name selects the first voice so
    named, a voice found beforehand selects itself, and undefined is
    passed over; after the loop the first voice is taken, if any. *)
Fixpoint pick_voice (voices : list voice) (preferredVoices : list (jsstring + option voice))
    : option voice :=
  match preferredVoices with
  | [] => head voices
  | inl voiceName :: rest =>
      match List.find (fun v => bool_decide (voice_name v = voiceName)) voices with
      | Some v => Some v
      | None => pick_voice voices rest
      end
  | inr (Some v) :: _ => Some v
  | inr None :: rest => pick_voice voices rest
  end.

Section Voice.
(** String.prototype.toLowerCase on voice names, which may hold any
    character, is kept as a parameter. *)
Variable lower : jsstring -> jsstring.

Definition english (v : voice) : bool := startsWith (lit "en") (voice_lang v).

Definition english_male (v : voice) : bool :=
  startsWith (lit "en") (voice_lang v) && includes (lit "male") (lower (voice_name v)).

(** The value left in [selectedVoice]; [None] is undefined. *)
Definition selectBestVoice (voices : list voice) : option voice :=
  pick_voice voices
    (map inl preferred_names
     ++ [ inr (List.find english_male voices); inr (List.find english voices) ]).

End Voice.

Definition sample_voices : list voice :=
  [ {| voice_name := lit "Amelie"; voice_lang := lit "fr-CA" |};
    {| voice_name := lit "Samantha"; voice_lang := lit "en-US" |};
    {| voice_name := lit "Fred"; voice_lang := lit "en-US" |} ].

(** ** Further notions used in the statements *)

(** The request that moves the branch, and the one that reads the index. *)
Definition is_UpdateRef (c : call) : bool :=
  match c with UpdateRef _ _ _ _ => true | _ => false end.

Definition is_GetContent (c : call) : bool :=
  match c with GetContent _ _ _ _ => true | _ => false end.

(** No whitespace at either end. *)
Definition is_trimmed (s : jsstring) : Prop :=
  match s with [] => True | c :: _ => is_space c = false end
  /\ match rev s with [] => True | c :: _ => is_space c = false end.

(** A question moved [k] places down the list. *)
Definition renumber (k : nat) (q : question) : question :=
  {| question_number := question_number q + k;
     question_text := question_text q;
     answer := answer q;
     accept := accept q |}.

(** The navigation never leaves the deck. *)
Definition in_deck (a : app) : Prop :=
  allCards a = [] \/ (currentCardIndex a < length (allCards a))%nat.

(** Each button is disabled exactly at its end of the deck. *)
Definition buttons_match (a : app) : Prop :=
  allCards a <> [] ->
  prevDisabled a = (currentCardIndex a =? 0)%nat
  /\ nextDisabled a = (S (currentCardIndex a) =? length (allCards a))%nat.

(** * Properties *)

(** ** Character classes *)

Ltac char_arith :=
  unfold filename_class, is_space, is_lower, is_upper, is_digit, hyphen, comma in *;
  repeat match goal with
         | H : _ = true |- _ =>
             rewrite ?orb_true_iff, ?andb_true_iff, ?N.eqb_eq, ?N.leb_le in H
         | H : _ = false |- _ =>
             rewrite ?orb_false_iff, ?andb_false_iff, ?N.eqb_neq, ?N.leb_gt in H
         end;
  try match goal with
      | |- _ = true => rewrite ?orb_true_iff, ?andb_true_iff, ?N.eqb_eq, ?N.leb_le
      | |- _ = false => rewrite ?orb_false_iff, ?andb_false_iff, ?N.eqb_neq, ?N.leb_gt
      end;
  lia.

Lemma space_not_alnum c :
  is_space c = true -> is_lower c = false /\ is_upper c = false /\ is_digit c = false.
Proof. intros Hs. repeat split; char_arith. Qed.

Lemma hyphen_not_space : is_space hyphen = false.
Proof. reflexivity. Qed.

(** ** The loop of the Converter *)

Section ConverterFacts.
Context {number : Type} `{JsNumber number}.
Implicit Types (r : row number) (qs : list question).

Lemma blank_falsy o : blank o <-> text_truthy o = false.
Proof.
  unfold blank. destruct o as [[|c s]|]; simpl; split; auto;
    try discriminate; intros [Hb|Hb]; discriminate.
Qed.

Lemma process_row_skipped qs r : skipped r = true -> process_row qs r = qs.
Proof.
  unfold skipped, process_row. intros Hs.
  destruct (empty_row r); [reflexivity|]. simpl in Hs. rewrite Hs. reflexivity.
Qed.

Lemma process_row_kept qs r :
  skipped r = false ->
  exists q a,
    stringify_trim (row_at r 0) = Some q /\ stringify_trim (row_at r 1) = Some a /\
    q <> [] /\ a <> [] /\
    process_row qs r =
      qs ++ [ {| question_number := length qs + 1; question_text := q; answer := a;
                 accept := accept_of (row_at r 2) |} ].
Proof.
  unfold skipped, process_row. intros Hs.
  apply orb_false_iff in Hs as [Hs Ha]. apply orb_false_iff in Hs as [He Hq].
  rewrite He. rewrite Hq, Ha. simpl.
  destruct (stringify_trim (row_at r 0)) as [[|c q]|]; try discriminate.
  destruct (stringify_trim (row_at r 1)) as [[|d a]|]; try discriminate.
  exists (c :: q), (d :: a). repeat split; congruence.
Qed.

Lemma blank_skipped r :
  blank (stringify_trim (row_at r 0)) \/ blank (stringify_trim (row_at r 1)) ->
  skipped r = true.
Proof.
  unfold skipped. intros [Hb|Hb]; apply blank_falsy in Hb; rewrite Hb; simpl;
    rewrite ?orb_true_r; reflexivity.
Qed.

Lemma process_row_length qs r :
  length (process_row qs r) = (length qs + if skipped r then 0 else 1)%nat.
Proof.
  destruct (skipped r) eqn:Hs.
  - rewrite process_row_skipped by assumption. lia.
  - destruct (process_row_kept qs r Hs) as (q & a & _ & _ & _ & _ & ->).
    rewrite length_app. reflexivity.
Qed.

Lemma process_row_numbered qs r : numbered qs -> numbered (process_row qs r).
Proof.
  unfold numbered. intros Hn. destruct (skipped r) eqn:Hs.
  - rewrite process_row_skipped; assumption.
  - destruct (process_row_kept qs r Hs) as (q & a & _ & _ & _ & _ & ->).
    rewrite map_app, length_app, seq_app, Hn. simpl.
    replace (length qs + 1)%nat with (S (length qs)) by lia. reflexivity.
Qed.

Lemma fold_numbered rows qs : numbered qs -> numbered (fold_left process_row rows qs).
Proof.
  revert qs. induction rows as [|r rows IH]; intros qs Hn; simpl; [assumption|].
  apply IH, process_row_numbered, Hn.
Qed.

Lemma fold_length rows qs :
  length (fold_left process_row rows qs)
  = (length qs + length (List.filter (fun r => negb (skipped r)) rows))%nat.
Proof.
  revert qs. induction rows as [|r rows IH]; intros qs; simpl; [lia|].
  rewrite IH, process_row_length. destruct (skipped r); simpl; lia.
Qed.

Lemma parse_rows_delete pre r post :
  skipped r = true -> parse_rows (pre ++ r :: post) = parse_rows (pre ++ post).
Proof.
  intros Hs. unfold parse_rows. rewrite !fold_left_app. simpl.
  rewrite process_row_skipped by assumption. reflexivity.
Qed.

(** The only round and the only player of the output. *)
Lemma convert_rounds day1 day2 (data : list (row number)) title :
  rounds (convertExcelToQuiz day1 day2 data title)
  = [ {| round_number := 1; round_name := title;
         players := [ {| player_number := 1;
                         questions := parse_rows (drop (startIndex data) data) |} ] |} ].
Proof. reflexivity. Qed.

(** For rows of text and missing cells, a row is kept exactly when both
    of its first two cells are non-empty after trimming. *)
Lemma skipped_textual r :
  textual (row_at r 0) -> textual (row_at r 1) ->
  skipped r = false <->
  ~ blank (stringify_trim (row_at r 0)) /\ ~ blank (stringify_trim (row_at r 1)).
Proof.
  intros H0 H1. rewrite !blank_falsy. unfold skipped, empty_row.
  assert (Hlen : (length r =? 0)%nat = true -> stringify_trim (row_at r 0) = None).
  { destruct r; [reflexivity | discriminate]. }
  assert (Ht : forall c, textual c -> text_truthy (stringify_trim c) = true -> truthy c = true).
  { intros [s| | |] Hc; simpl; try contradiction; try discriminate.
    destruct s; simpl; [discriminate | reflexivity]. }
  destruct (text_truthy (stringify_trim (row_at r 0))) eqn:Eq,
           (text_truthy (stringify_trim (row_at r 1))) eqn:Ea; simpl;
    rewrite ?orb_true_r; try (split; [discriminate | intros [? ?]; congruence]).
  destruct (length r =? 0)%nat eqn:El.
  - rewrite Hlen in Eq by reflexivity. discriminate.
  - rewrite (Ht _ H0 Eq). simpl. split; [intros _; split; congruence | reflexivity].
Qed.

End ConverterFacts.

(** ** The header pattern *)

Lemma canonicalize_upper (c u : N) :
  is_upper u = true -> canonicalize c = u <-> c = u \/ c = u + 0x20.
Proof.
  intros Hu. unfold canonicalize. destruct (is_lower c) eqn:Hl.
  - split; [intros <-; right | intros [->| ->]]; char_arith.
  - split; [intros ->; left; reflexivity | intros [->| ->]; [reflexivity|]]. char_arith.
Qed.

(** The alternatives q and a subsume question and answer: the pattern
    accepts exactly the strings that begin with q, Q, a or A. *)
Lemma header_regex_test_first s :
  header_regex_test s = true <->
  exists c s', s = c :: s' /\ (c = 0x71 \/ c = 0x51 \/ c = 0x61 \/ c = 0x41).
Proof.
  unfold header_regex_test, header_pattern. cbn [existsb].
  destruct s as [|c s'].
  - split; [discriminate | intros (c & s' & Hs & _); discriminate].
  - assert (Hq : (canonicalize 0x71 =? canonicalize c) = true <-> c = 0x71 \/ c = 0x51).
    { rewrite N.eqb_eq. change (canonicalize 0x71) with 0x51.
      pose proof (canonicalize_upper c 0x51 eq_refl) as Hc.
      change (0x51 + 0x20) with 0x71 in Hc.
      split; [intros E; symmetry in E | intros E; symmetry]; tauto. }
    assert (Ha : (canonicalize 0x61 =? canonicalize c) = true <-> c = 0x61 \/ c = 0x41).
    { rewrite N.eqb_eq. change (canonicalize 0x61) with 0x41.
      pose proof (canonicalize_upper c 0x41 eq_refl) as Hc.
      change (0x41 + 0x20) with 0x61 in Hc.
      split; [intros E; symmetry in E | intros E; symmetry]; tauto. }
    assert (Hhd : forall p pat,
               starts_with_ci (p :: pat) (c :: s') = true ->
               (canonicalize p =? canonicalize c) = true).
    { intros p pat Hp. simpl in Hp. apply andb_true_iff in Hp. tauto. }
    change (lit "question") with (0x71 :: lit "uestion").
    change (lit "answer") with (0x61 :: lit "nswer").
    change (lit "q") with (0x71 :: @nil N).
    change (lit "a") with (0x61 :: @nil N).
    rewrite !orb_true_iff. split.
    + intros Ht. exists c, s'. split; [reflexivity|].
      destruct Ht as [Ht|[Ht|[Ht|[Ht|Ht]]]]; [apply Hhd in Ht .. | discriminate].
      * apply Hq in Ht. tauto.
      * apply Ha in Ht. tauto.
      * apply Hq in Ht. tauto.
      * apply Ha in Ht. tauto.
    + intros (c0 & s0 & Hs & Hc). injection Hs as <- <-.
      assert (Hone : forall p, (canonicalize p =? canonicalize c) = true ->
                               starts_with_ci [p] (c :: s') = true).
      { intros p Hp. simpl. rewrite Hp. reflexivity. }
      right. right.
      destruct Hc as [Hc|[Hc|[Hc|Hc]]].
      * left. apply Hone, Hq. tauto.
      * left. apply Hone, Hq. tauto.
      * right. left. apply Hone, Ha. tauto.
      * right. left. apply Hone, Ha. tauto.
Qed.

Section ConverterClaims.
Context {number : Type} `{JsNumber number}.

Lemma convert_all_questions day1 day2 (data : list (row number)) title :
  all_questions (convertExcelToQuiz day1 day2 data title)
  = parse_rows (drop (startIndex data) data).
Proof. unfold all_questions. rewrite convert_rounds. simpl. apply app_nil_r. Qed.

(** C1: the output has one round with one player; the question numbers
    of that player are 1, 2, ..., in order; and a data row whose first
    or second cell is empty or absent after stringify-and-trim adds
    nothing: the questions, numbers included, are those obtained from
    the data rows without that row. *)
Theorem blank_rows_skipped_numbers_dense
    day1 day2 (data : list (row number)) title :
  exists qs,
    rounds (convertExcelToQuiz day1 day2 data title)
    = [ {| round_number := 1; round_name := title;
           players := [ {| player_number := 1; questions := qs |} ] |} ]
    /\ map question_number qs = seq 1 (length qs)
    /\ forall pre r post,
         drop (startIndex data) data = pre ++ r :: post ->
         blank (stringify_trim (row_at r 0)) \/ blank (stringify_trim (row_at r 1)) ->
         process_row (parse_rows pre) r = parse_rows pre
         /\ qs = parse_rows (pre ++ post).
Proof.
  exists (parse_rows (drop (startIndex data) data)). split; [apply convert_rounds|].
  split.
  - apply (fold_numbered _ []). reflexivity.
  - intros pre r post -> Hb. apply blank_skipped in Hb. split.
    + apply process_row_skipped, Hb.
    + apply parse_rows_delete, Hb.
Qed.

(** C2: for a matrix with a first row, the data rows begin at index 1
    exactly when some cell of row 0 is a string whose trimmed value
    matches /^(question|answer|q|a)/i, and then the questions come from
    the rows after row 0; otherwise they begin at index 0 and the
    questions come from all rows, row 0 included. *)
Theorem header_row_detection
    day1 day2 (firstRow : row number) (rest : list (row number)) title :
  let data := firstRow :: rest in
  let header := exists s, CString s ∈ firstRow /\ header_regex_test (trim s) = true in
  (startIndex data = 1%nat <-> header)
  /\ (header ->
      drop (startIndex data) data = rest
      /\ all_questions (convertExcelToQuiz day1 day2 data title) = parse_rows rest)
  /\ (~ header ->
      startIndex data = 0%nat
      /\ drop (startIndex data) data = data
      /\ all_questions (convertExcelToQuiz day1 day2 data title) = parse_rows data).
Proof.
  intros data header.
  assert (Hh : hasHeaders firstRow = true <-> header).
  { unfold hasHeaders, header. rewrite existsb_exists. split.
    - intros (c & Hin & Hc). destruct c as [s| | |]; try discriminate.
      exists s. split; [apply list_elem_of_In, Hin | exact Hc].
    - intros (s & Hin & Hs). exists (CString s). split; [apply list_elem_of_In, Hin | exact Hs]. }
  assert (Hstart : startIndex data = if hasHeaders firstRow then 1%nat else 0%nat)
    by reflexivity.
  split; [|split].
  - rewrite Hstart. destruct (hasHeaders firstRow).
    + split; [intros _; apply Hh; reflexivity | reflexivity].
    + split; [discriminate | intros Hd; apply Hh in Hd; discriminate].
  - intros Hd. apply Hh in Hd. rewrite convert_all_questions, Hstart, Hd.
    split; reflexivity.
  - intros Hd. rewrite convert_all_questions, Hstart.
    destruct (hasHeaders firstRow); [|repeat split; reflexivity].
    exfalso. apply Hd, Hh. reflexivity.
Qed.

(** The question count computed by the Publisher on the Converter's
    output is the number of data rows (the rows from the start index on)
    that neither guard of the loop skips. *)
Lemma totalQuestions_counts_kept_rows
    day1 day2 (data : list (row number)) title :
  totalQuestions (convertExcelToQuiz day1 day2 data title)
  = length (List.filter (fun r => negb (skipped r)) (drop (startIndex data) data)).
Proof.
  unfold totalQuestions. rewrite convert_rounds. simpl.
  unfold parse_rows. rewrite fold_length. reflexivity.
Qed.

(** A row the loop keeps is a valid row. *)
Lemma kept_row_valid (r : row number) : skipped r = false -> valid_row r = true.
Proof.
  unfold skipped, valid_row. intros Hs.
  apply orb_false_iff in Hs as [Hs Ha]. apply orb_false_iff in Hs as [_ Hq].
  apply negb_false_iff in Hq, Ha. rewrite Hq, Ha. reflexivity.
Qed.

(** A valid row is skipped only by the first guard, when both of its
    cells are falsy although neither is empty as a string. *)
Lemma valid_row_skipped (r : row number) :
  valid_row r = true ->
  skipped r = negb (truthy (row_at r 0)) && negb (truthy (row_at r 1)).
Proof.
  unfold skipped, valid_row, empty_row. intros Hv.
  apply andb_true_iff in Hv as [Hq Ha]. rewrite Hq, Ha. simpl.
  destruct r as [|c r]; [discriminate Hq|]. simpl.
  rewrite !orb_false_r. reflexivity.
Qed.

(** Where no valid data row has both cells falsy, the count is the number
    of valid data rows. *)
Lemma totalQuestions_counts_valid_rows
    day1 day2 (data : list (row number)) title :
  Forall (fun r => valid_row r = true ->
                   truthy (row_at r 0) || truthy (row_at r 1) = true)
         (drop (startIndex data) data) ->
  totalQuestions (convertExcelToQuiz day1 day2 data title)
  = length (List.filter valid_row (drop (startIndex data) data)).
Proof.
  intros Hrows. rewrite totalQuestions_counts_kept_rows. f_equal.
  apply filter_ext_in. intros r Hr.
  rewrite List.Forall_forall in Hrows. specialize (Hrows r Hr).
  destruct (valid_row r) eqn:Hv.
  - rewrite (valid_row_skipped r Hv). specialize (Hrows eq_refl).
    destruct (truthy (row_at r 0)), (truthy (row_at r 1)); try reflexivity; discriminate.
  - destruct (skipped r) eqn:Hs; [reflexivity|].
    apply kept_row_valid in Hs. congruence.
Qed.

End ConverterClaims.

(** C6: the matrix whose only row holds the number 0 in both columns has
    no header and one valid row (each cell is "0" after
    stringify-and-trim), yet the first guard of the loop takes the row for
    an empty one and the count computed on the Converter's output is 0. *)
Theorem totalQuestions_misses_zero_row :
  let r : row Z := [CNumber 0%Z; CNumber 0%Z] in
  let quizData := convertExcelToQuiz (lit "2024-05-01") (lit "2024-05-01") [r] (lit "Demo") in
  startIndex [r] = 0%nat
  /\ stringify_trim (row_at r 0) = Some (lit "0")
  /\ stringify_trim (row_at r 1) = Some (lit "0")
  /\ length (List.filter valid_row (drop (startIndex [r]) [r])) = 1%nat
  /\ empty_row r = true
  /\ all_questions quizData = []
  /\ totalQuestions quizData = 0%nat.
Proof. repeat split; reflexivity. Qed.

(** C1, at a matrix whose middle row has a blank first cell. *)
Lemma blank_rows_skipped_numbers_dense_witness :
  let r1 : row Z := [CString (lit "Capital of France?"); CString (lit "Paris")] in
  let r2 : row Z := [CString (lit "   "); CString (lit "x")] in
  let r3 : row Z := [CString (lit "2 + 2?"); CNumber 4%Z] in
  exists qs,
    rounds (convertExcelToQuiz (lit "2024-05-01") (lit "2024-05-01") [r1; r2; r3] (lit "Demo"))
    = [ {| round_number := 1; round_name := lit "Demo";
           players := [ {| player_number := 1; questions := qs |} ] |} ]
    /\ map question_number qs = seq 1 (length qs)
    /\ qs = parse_rows [r1; r3].
Proof.
  intros r1 r2 r3.
  destruct (blank_rows_skipped_numbers_dense
              (lit "2024-05-01") (lit "2024-05-01") [r1; r2; r3] (lit "Demo"))
    as (qs & Hr & Hn & Hd).
  exists qs. split; [exact Hr|]. split; [exact Hn|].
  apply (Hd [r1] r2 [r3]); [reflexivity | left; right; reflexivity].
Defined.

(** C2, at a matrix that begins with a header row. *)
Lemma header_row_detection_witness :
  let hdr : row Z := [CString (lit "Question"); CString (lit "Answer")] in
  let r1 : row Z := [CString (lit "Capital of France?"); CString (lit "Paris")] in
  all_questions (convertExcelToQuiz (lit "2024-05-01") (lit "2024-05-01") [hdr; r1] (lit "Demo"))
  = parse_rows [r1].
Proof.
  intros hdr r1.
  apply (proj1 (proj2 (header_row_detection
                         (lit "2024-05-01") (lit "2024-05-01") hdr [r1] (lit "Demo")))).
  exists (lit "Question"). split; [|reflexivity].
  apply list_elem_of_In. simpl. left. reflexivity.
Defined.

(** ** Alternatives in column C *)

Section Alternatives.
Context {number : Type} `{JsNumber number}.

Lemma alternatives_nonempty s alt : In alt (alternatives s) -> alt <> [].
Proof.
  unfold alternatives. rewrite filter_In. intros [_ Hl] ->. discriminate.
Qed.

(** The field is never an empty array. *)
Lemma accept_of_never_empty (c : cell number) : accept_of c <> Some [].
Proof.
  unfold accept_of. destruct (truthy c); [|discriminate].
  destruct (cell_toString c) as [s|]; [|discriminate].
  destruct (alternatives s); simpl; discriminate.
Qed.

(** For a truthy cell the field is the list of alternatives, if any. *)
Lemma accept_of_truthy (c : cell number) s :
  truthy c = true -> cell_toString c = Some s ->
  accept_of c = match alternatives s with [] => None | alts => Some alts end.
Proof.
  unfold accept_of. intros -> ->. destruct (alternatives s); reflexivity.
Qed.

(** A string cell is falsy only when empty, and then it has no
    alternatives: for strings the truthiness guard loses nothing. *)
Lemma accept_of_string s :
  accept_of (CString s : cell number)
  = match alternatives s with [] => None | alts => Some alts end.
Proof.
  destruct s as [|c s]; [reflexivity|]. apply accept_of_truthy; reflexivity.
Qed.

End Alternatives.

(** C3: a kept row whose column-C cell is the number 0 is emitted without
    an accept field, although the cell is present and its stringified
    value "0" splits into the non-empty sequence ["0"]. *)
Theorem accept_omitted_for_zero_cell :
  let r : row Z :=
    [CString (lit "What is 5 - 5?"); CString (lit "zero"); CNumber 0%Z] in
  cell_toString (row_at r 2) = Some (lit "0")
  /\ alternatives (lit "0") = [lit "0"]
  /\ parse_rows [r]
     = [ {| question_number := 1; question_text := lit "What is 5 - 5?";
            answer := lit "zero"; accept := None |} ].
Proof. repeat split; reflexivity. Qed.

(** ** Filename derivation *)

Lemma strip_unsafe_class t : Forall (fun c => filename_class c = true) (strip_unsafe t).
Proof. apply List.Forall_forall. intros c Hc. apply filter_In in Hc. tauto. Qed.

Lemma hyphenate_from_chars b s :
  Forall (fun c => filename_class c = true) s ->
  Forall (fun c => filename_class c = true /\ is_space c = false) (hyphenate_from b s).
Proof.
  intros Hs. revert b. induction Hs as [|c s Hc Hs IH]; intros b; simpl; [constructor|].
  destruct (is_space c) eqn:Hsp.
  - destruct b; [apply IH|]. constructor; [|apply IH]. split; reflexivity.
  - constructor; [|apply IH]. split; assumption.
Qed.

(** The string handed to [toLowerCase] holds only ASCII letters, digits
    and hyphens. *)
Lemma sanitized_chars t :
  Forall (fun c => is_lower c || is_upper c || is_digit c || (c =? hyphen) = true)
         (hyphenate (strip_unsafe t)).
Proof.
  eapply Forall_impl; [apply hyphenate_from_chars, strip_unsafe_class|].
  intros c [Hc Hs]. simpl in *. unfold filename_class in Hc. rewrite Hs in Hc.
  rewrite orb_false_r in Hc. exact Hc.
Qed.

Lemma derive_filename_safe t : Forall (fun c => safe c = true) (derive_filename t).
Proof.
  unfold derive_filename, toLowerCase. apply List.Forall_map.
  eapply Forall_impl; [apply sanitized_chars|].
  intros c Hc. simpl in *. unfold safe. destruct (is_upper c) eqn:Hu.
  - clear Hc. char_arith.
  - rewrite orb_false_r in Hc. exact Hc.
Qed.

Lemma strip_unsafe_safe s : Forall (fun c => safe c = true) s -> strip_unsafe s = s.
Proof.
  induction 1 as [|c s Hc Hs IH]; [reflexivity|]. unfold strip_unsafe in *. simpl.
  replace (filename_class c) with true; [rewrite IH; reflexivity|].
  symmetry. unfold safe in Hc. char_arith.
Qed.

Lemma hyphenate_from_safe b s :
  Forall (fun c => safe c = true) s -> hyphenate_from b s = s.
Proof.
  intros Hs. revert b. induction Hs as [|c s Hc Hs IH]; intros b; [reflexivity|]. simpl.
  replace (is_space c) with false; [rewrite IH; reflexivity|].
  symmetry. unfold safe in Hc. char_arith.
Qed.

Lemma toLowerCase_safe s : Forall (fun c => safe c = true) s -> toLowerCase s = s.
Proof.
  induction 1 as [|c s Hc Hs IH]; [reflexivity|]. unfold toLowerCase in *. simpl.
  replace (is_upper c) with false; [rewrite IH; reflexivity|].
  symmetry. unfold safe in Hc. char_arith.
Qed.

Lemma derive_filename_fixed s : Forall (fun c => safe c = true) s -> derive_filename s = s.
Proof.
  intros Hs. unfold derive_filename, hyphenate.
  rewrite strip_unsafe_safe, hyphenate_from_safe by assumption.
  apply toLowerCase_safe, Hs.
Qed.

Lemma derive_filename_idempotent t : derive_filename (derive_filename t) = derive_filename t.
Proof. apply derive_filename_fixed, derive_filename_safe. Qed.

Lemma strip_unsafe_nothing t :
  Forall (fun c => filename_class c = false) t -> strip_unsafe t = [].
Proof.
  induction 1 as [|c t Hc Ht IH]; [reflexivity|]. unfold strip_unsafe in *. simpl.
  rewrite Hc. exact IH.
Qed.

(** C4 as stated fails on its example: the é of "Café Quiz!" is outside
    the class and is deleted, so the derived filename is "caf-quiz". *)
Lemma cafe_accent_quiz_not_cafe_quiz :
  derive_filename cafe_accent_quiz <> lit "cafe-quiz".
Proof. vm_compute. discriminate. Qed.

(** C4 (amended): the derivation is a function of the title, applying it
    to its own output changes nothing, "Café Quiz!" derives to "caf-quiz",
    and "Cafe Quiz!" and "Cafe Quiz" both derive to "cafe-quiz". *)
Theorem derive_filename_deterministic_idempotent :
  (forall t1 t2, t1 = t2 -> derive_filename t1 = derive_filename t2)
  /\ (forall t, derive_filename (derive_filename t) = derive_filename t)
  /\ derive_filename cafe_accent_quiz = lit "caf-quiz"
  /\ derive_filename (lit "Cafe Quiz!") = lit "cafe-quiz"
  /\ derive_filename (lit "Cafe Quiz") = lit "cafe-quiz".
Proof.
  split; [intros t1 t2 ->; reflexivity|].
  split; [apply derive_filename_idempotent|].
  repeat split; reflexivity.
Qed.

Lemma derive_filename_deterministic_idempotent_witness :
  derive_filename (lit "Cafe Quiz") = derive_filename (lit "Cafe Quiz")
  /\ derive_filename (derive_filename (lit "Cafe  Quiz!")) = derive_filename (lit "Cafe  Quiz!").
Proof.
  split.
  - apply (proj1 derive_filename_deterministic_idempotent). reflexivity.
  - apply (proj1 (proj2 derive_filename_deterministic_idempotent)).
Defined.

(** ** The index update *)

Lemma findIndex_Some {A} (pred : A -> bool) (arr : list A) i :
  findIndex pred arr = Some i ->
  (exists x, arr !! i = Some x /\ pred x = true)
  /\ (forall j y, (j < i)%nat -> arr !! j = Some y -> pred y = false).
Proof.
  revert i. induction arr as [|x arr IH]; intros i; simpl; [discriminate|].
  destruct (pred x) eqn:Hx.
  - intros [= <-]. split; [exists x; split; [reflexivity | exact Hx]|].
    intros j y Hj. lia.
  - destruct (findIndex pred arr) as [k|]; simpl; [|discriminate].
    intros [= <-]. destruct (IH k eq_refl) as [Hk Hbefore]. split; [exact Hk|].
    intros [|j] y Hj; simpl.
    + intros [= <-]. exact Hx.
    + apply Hbefore. lia.
Qed.

Lemma findIndex_None {A} (pred : A -> bool) (arr : list A) :
  findIndex pred arr = None <-> (forall x, x ∈ arr -> pred x = false).
Proof.
  induction arr as [|x arr IH]; simpl.
  - split; [intros _ x Hx; inversion Hx | reflexivity].
  - destruct (pred x) eqn:Hx.
    + split; [discriminate|]. intros Hall. rewrite Hall in Hx; [discriminate | left].
    + destruct (findIndex pred arr) as [k|]; simpl.
      * split; [discriminate|]. intros Hall.
        assert (Some k = None); [|discriminate].
        apply IH. intros y Hy. apply Hall. right. exact Hy.
      * split; [|reflexivity]. intros _ y Hy. inversion Hy; subst; [exact Hx|].
        apply IH; [reflexivity | assumption].
Qed.



(** ** The publish sequence *)

Lemma bind_request {B} (w : world) (c : call) (k : jsstring -> io B) log :
  (request w c ≫= k) log
  = match octokit w log c with
    | inr s => k s (log ++ [c])
    | inl err => (inl err, log ++ [c])
    end.
Proof.
  unfold mbind, io_bind, bind, request. destruct (octokit w log c); reflexivity.
Qed.

(** Without an owner or a repository name the function throws at once:
    the log of requests is returned as it was received. *)
Lemma saveQuizToRepo_not_configured e w quizData quizTitle log :
  set (owner_of e) = false \/ set (repo_of e) = false ->
  saveQuizToRepo e w quizData quizTitle log = (inl not_configured, log).
Proof.
  unfold owner_of, repo_of, saveQuizToRepo. intros Hc.
  destruct (or_else (GITHUB_OWNER e) (VERCEL_GIT_REPO_OWNER e)) as [[|o owner]|];
    destruct (or_else (GITHUB_REPO e) (VERCEL_GIT_REPO_SLUG e)) as [[|r repo]|];
    simpl in Hc; try reflexivity.
  destruct Hc; discriminate.
Qed.

Ltac answer Hall s :=
  match goal with
  | |- context [octokit ?w ?l ?c] =>
      let E := fresh "E" s in destruct (Hall l c) as [s E]; rewrite E
  end.

(** When the configuration is present, every request is answered, and the
    fetched index (if it parses) has a quizzes array, the sequence runs to
    its end: eight requests, the tree holding the quiz at the derived
    path, the index blob holding the fetched index with the new entry put
    in by [upsert_entry]. *)
Lemma saveQuizToRepo_completes e w quizData quizTitle :
  set (owner_of e) = true -> set (repo_of e) = true ->
  (forall log c, exists s, octokit w log c = inr s) ->
  (forall s, parse_index w s <> NoQuizzesArray) ->
  exists content owner repo commit0 tree0 blob1 blob2 tree1 commit1,
    let filename := derive_filename quizTitle in
    let branch := or_literal (GITHUB_BRANCH e) (lit "main") in
    let index' :=
      {| quizzes := upsert_entry (newEntry quizTitle filename (totalQuestions quizData))
                                 (fetched_quizzes (parse_index w content)) |} in
    octokit w [ GetRef owner repo (lit "heads/" ++ branch); GetCommit owner repo commit0 ]
            (GetContent owner repo index_path branch) = inr content
    /\ saveQuizToRepo e w quizData quizTitle []
       = (inr {| quizPath := quizPath_of filename; commitSha := commit1;
                 quizUrl := quizUrl_of filename |},
          [ GetRef owner repo (lit "heads/" ++ branch);
            GetCommit owner repo commit0;
            GetContent owner repo index_path branch;
            CreateBlob owner repo (QuizBlob quizData);
            CreateBlob owner repo (IndexBlob index');
            CreateTree owner repo tree0
              [ {| te_path := quizPath_of filename; te_mode := lit "100644";
                   te_type := lit "blob"; te_sha := blob1 |};
                {| te_path := index_path; te_mode := lit "100644";
                   te_type := lit "blob"; te_sha := blob2 |} ];
            CreateCommit owner repo (lit "Add quiz: " ++ quizTitle) tree1 [commit0];
            UpdateRef owner repo (lit "heads/" ++ branch) commit1 ]).
Proof.
  unfold owner_of, repo_of, saveQuizToRepo. intros Ho Hr Hall Hparse.
  destruct (or_else (GITHUB_OWNER e) (VERCEL_GIT_REPO_OWNER e)) as [[|o owner]|];
    try discriminate.
  destruct (or_else (GITHUB_REPO e) (VERCEL_GIT_REPO_SLUG e)) as [[|r repo]|];
    try discriminate.
  unfold mbind, io_bind, bind, try_catch, request, request_both, mret, io_ret, ret, throw.
  answer Hall commit0. answer Hall tree0. answer Hall content.
  destruct (parse_index w content) as [| |quizIndex] eqn:Hp;
    [| exfalso; exact (Hparse _ Hp) |];
    cbn iota beta;
    answer Hall blob1; answer Hall blob2; answer Hall tree1; answer Hall commit1;
    answer Hall ref1;
    exists content, (o :: owner), (r :: repo), commit0, tree0, blob1, blob2, tree1, commit1;
    cbv zeta; rewrite Hp; (split; [exact Econtent | reflexivity]).
Qed.

(** C9: a title with no code unit in the class [a-z0-9\s-] (letters of
    either case) derives to the empty filename; the target path is
    public/data/quizzes/.json and the index entry's file is
    /data/quizzes/.json; and nothing rejects it: with the configuration
    present and every request answered, the sequence completes, commits
    the quiz under that path and returns it. *)
Theorem empty_filename_published (quizTitle : jsstring) :
  Forall (fun c => filename_class c = false) quizTitle ->
  derive_filename quizTitle = []
  /\ quizPath_of (derive_filename quizTitle) = lit "public/data/quizzes/.json"
  /\ (forall total,
        file (newEntry quizTitle (derive_filename quizTitle) total) = lit "/data/quizzes/.json")
  /\ forall e w quizData,
       set (owner_of e) = true -> set (repo_of e) = true ->
       (forall log c, exists s, octokit w log c = inr s) ->
       (forall s, parse_index w s <> NoQuizzesArray) ->
       exists res log,
         saveQuizToRepo e w quizData quizTitle [] = (inr res, log)
         /\ quizPath res = lit "public/data/quizzes/.json"
         /\ quizUrl res = lit "/data/quizzes/.json"
         /\ exists owner repo base sha rest,
              CreateTree owner repo base
                ({| te_path := lit "public/data/quizzes/.json"; te_mode := lit "100644";
                    te_type := lit "blob"; te_sha := sha |} :: rest) ∈ log.
Proof.
  intros Hout.
  assert (Hd : derive_filename quizTitle = []).
  { unfold derive_filename. rewrite strip_unsafe_nothing by assumption. reflexivity. }
  split; [exact Hd|]. split; [rewrite Hd; reflexivity|].
  split; [intros total; simpl; rewrite Hd; reflexivity|].
  intros e w quizData Ho Hr Hall Hparse.
  destruct (saveQuizToRepo_completes e w quizData quizTitle Ho Hr Hall Hparse)
    as (content & owner & repo & commit0 & tree0 & blob1 & blob2 & tree1 & commit1
        & _ & Hrun).
  cbv zeta in Hrun. rewrite Hd in Hrun.
  eexists _, _. split; [exact Hrun|]. split; [reflexivity|]. split; [reflexivity|].
  exists owner, repo, tree0, blob1. eexists.
  apply list_elem_of_In. simpl. do 5 right. left. reflexivity.
Qed.

(** C9, at the title "???". *)
Lemma empty_filename_published_witness :
  derive_filename (lit "???") = []
  /\ exists res log,
       saveQuizToRepo env_configured world_up empty_quiz (lit "???") [] = (inr res, log)
       /\ quizPath res = lit "public/data/quizzes/.json".
Proof.
  assert (Hout : Forall (fun c => filename_class c = false) (lit "???"))
    by (repeat constructor).
  destruct (empty_filename_published (lit "???") Hout) as (Hd & _ & _ & Hrun).
  split; [exact Hd|].
  destruct (Hrun env_configured world_up empty_quiz) as (res & log & Hres & Hpath & _).
  - reflexivity.
  - reflexivity.
  - intros log c. eexists. reflexivity.
  - intros s. discriminate.
  - exists res, log. split; assumption.
Defined.

(** ** The handler *)

Section HandlerClaims.
Context {number : Type} `{JsNumber number}.
Implicit Types (readSheet : jsstring -> exn + list (row number)).

(** The handler past its checks: a POST whose form parses, with a file
    whose sheet is read. *)
Lemma handler_converted e w readSheet day1 day2 req form uploadedFile data :
  method req = lit "POST" ->
  form_parse req = inr form ->
  files_file form ≫= head = Some uploadedFile ->
  readSheet (filepath uploadedFile) = inr data ->
  let quizTitle := quizTitle_of form uploadedFile in
  let quizData := convertExcelToQuiz day1 day2 data quizTitle in
  handler e w readSheet day1 day2 req
  = (let '(saved, quizFilePath, log) :=
       if set (GITHUB_TOKEN e) then
         match saveQuizToRepo e w quizData quizTitle [] with
         | (inr saveResult, log) => (true, Some (quizPath saveResult), log)
         | (inl saveError, log) => (false, None, log)
         end
       else (false, None, []) in
     ({| status := 200;
         json := QuizBody true quizData saved quizFilePath (saved_message saved) |}, log)).
Proof.
  intros Hm Hf Hu Hs. unfold handler.
  rewrite Hm, bool_decide_eq_true_2 by reflexivity. simpl negb. cbv iota.
  rewrite Hf, Hu, Hs. reflexivity.
Qed.

(** C7: once the upload is converted and the token is set, whatever
    saveQuizToRepo throws, the handler answers 200 with success true,
    the converted document, saved false and quizPath null. *)
Theorem publish_failure_not_fatal
    e w readSheet day1 day2 req form uploadedFile data err log :
  method req = lit "POST" ->
  form_parse req = inr form ->
  files_file form ≫= head = Some uploadedFile ->
  readSheet (filepath uploadedFile) = inr data ->
  set (GITHUB_TOKEN e) = true ->
  saveQuizToRepo e w
    (convertExcelToQuiz day1 day2 data (quizTitle_of form uploadedFile))
    (quizTitle_of form uploadedFile) [] = (inl err, log) ->
  handler e w readSheet day1 day2 req
  = ({| status := 200;
        json := QuizBody true
                  (convertExcelToQuiz day1 day2 data (quizTitle_of form uploadedFile))
                  false None
                  (lit "Quiz parsed successfully (download to save manually)") |},
     log).
Proof.
  intros Hm Hf Hu Hs Ht Hsave.
  rewrite (handler_converted e w readSheet day1 day2 req form uploadedFile data Hm Hf Hu Hs).
  cbv zeta. rewrite Ht, Hsave. reflexivity.
Qed.

(** C8: without an owner or a repository name saveQuizToRepo throws the
    configuration error and sends no request; without the token the
    handler does not call it at all: it sends no request and answers 200
    with the converted document, saved false and quizPath null. *)
Theorem configuration_absent :
  (forall e w quizData quizTitle log,
      set (owner_of e) = false \/ set (repo_of e) = false ->
      saveQuizToRepo e w quizData quizTitle log = (inl not_configured, log))
  /\ (forall e w readSheet day1 day2 req form uploadedFile data,
        method req = lit "POST" ->
        form_parse req = inr form ->
        files_file form ≫= head = Some uploadedFile ->
        readSheet (filepath uploadedFile) = inr data ->
        set (GITHUB_TOKEN e) = false ->
        handler e w readSheet day1 day2 req
        = ({| status := 200;
              json := QuizBody true
                        (convertExcelToQuiz day1 day2 data (quizTitle_of form uploadedFile))
                        false None
                        (lit "Quiz parsed successfully (download to save manually)") |},
           [])).
Proof.
  split.
  - apply saveQuizToRepo_not_configured.
  - intros e w readSheet day1 day2 req form uploadedFile data Hm Hf Hu Hs Ht.
    rewrite (handler_converted e w readSheet day1 day2 req form uploadedFile data Hm Hf Hu Hs).
    cbv zeta. rewrite Ht. reflexivity.
Qed.

End HandlerClaims.

(** C7, with a store that rejects the first request. *)
Lemma publish_failure_not_fatal_witness :
  handler env_configured world_down sample_sheet (lit "2024-05-01") (lit "2024-05-01")
          sample_request
  = ({| status := 200;
        json := QuizBody true
                  (convertExcelToQuiz (lit "2024-05-01") (lit "2024-05-01")
                                      sample_rows (lit "Demo"))
                  false None
                  (lit "Quiz parsed successfully (download to save manually)") |},
     [GetRef (lit "owner") (lit "quiz") (lit "heads/main")]).
Proof.
  exact (publish_failure_not_fatal
           env_configured world_down sample_sheet (lit "2024-05-01") (lit "2024-05-01")
           sample_request sample_form sample_upload sample_rows
           (Throw (lit "Bad credentials"))
           [GetRef (lit "owner") (lit "quiz") (lit "heads/main")]
           eq_refl eq_refl eq_refl eq_refl eq_refl eq_refl).
Defined.

(** C8, with the owner missing, and with the token missing. *)
Lemma configuration_absent_witness :
  saveQuizToRepo env_no_owner world_up empty_quiz (lit "Demo") [] = (inl not_configured, [])
  /\ handler env_no_token world_up sample_sheet (lit "2024-05-01") (lit "2024-05-01")
             sample_request
     = ({| status := 200;
           json := QuizBody true
                     (convertExcelToQuiz (lit "2024-05-01") (lit "2024-05-01")
                                         sample_rows (lit "Demo"))
                     false None
                     (lit "Quiz parsed successfully (download to save manually)") |},
        []).
Proof.
  split.
  - apply (proj1 (configuration_absent (number := Z))). left. reflexivity.
  - exact (proj2 (configuration_absent (number := Z))
             env_no_token world_up sample_sheet (lit "2024-05-01") (lit "2024-05-01")
             sample_request sample_form sample_upload sample_rows
             eq_refl eq_refl eq_refl eq_refl eq_refl).
Defined.

(** ** The default title *)

Lemma starts_with_ci_spec pat s :
  starts_with_ci pat s = true <->
  exists p rest, s = p ++ rest /\ map canonicalize p = map canonicalize pat.
Proof.
  revert s. induction pat as [|a pat IH]; intros s.
  - split; [intros _; exists [], s; split; reflexivity | reflexivity].
  - destruct s as [|c s]; simpl.
    + split; [discriminate|]. intros (p & rest & Hs & Hp).
      destruct p; [discriminate Hp | discriminate Hs].
    + rewrite andb_true_iff, N.eqb_eq, IH. split.
      * intros (Hc & p & rest & -> & Hp). exists (c :: p), rest.
        split; [reflexivity|]. simpl. congruence.
      * intros (p & rest & Hs & Hp). destruct p as [|c' p]; [discriminate Hp|].
        simpl in Hs, Hp. injection Hs as <- ->. injection Hp as Hc Hp.
        split; [congruence|]. exists p, rest. split; [reflexivity | exact Hp].
Qed.

Lemma ends_with_ci_spec suffix s :
  ends_with_ci suffix s = true <->
  exists pre ext, s = pre ++ ext /\ map canonicalize ext = map canonicalize suffix.
Proof.
  unfold ends_with_ci. rewrite starts_with_ci_spec. split.
  - intros (p & rest & Hs & Hp). exists (rev rest), (rev p). split.
    + rewrite <- rev_app_distr, <- Hs, rev_involutive. reflexivity.
    + rewrite map_rev, Hp, <- map_rev, rev_involutive. reflexivity.
  - intros (pre & ext & -> & He). exists (rev ext), (rev pre). split.
    + apply rev_app_distr.
    + rewrite !map_rev, He. reflexivity.
Qed.

Lemma take_suffix (pre ext : jsstring) k :
  length ext = k -> take (length (pre ++ ext) - k) (pre ++ ext) = pre.
Proof.
  intros <-. rewrite length_app.
  replace (length pre + length ext - length ext)%nat with (length pre) by lia.
  apply take_app_length.
Qed.

(** [strip_extension] cuts one extension off the end, or leaves a name
    that has none as it is. *)
Lemma strip_extension_spec s :
  (exists ext, is_extension ext /\ s = strip_extension s ++ ext)
  \/ (strip_extension s = s /\ forall pre ext, is_extension ext -> s <> pre ++ ext).
Proof.
  unfold strip_extension.
  assert (Hcut : forall suffix,
             ends_with_ci suffix s = true ->
             exists ext, map canonicalize ext = map canonicalize suffix
                         /\ s = take (length s - length suffix) s ++ ext).
  { intros suffix Hs. apply ends_with_ci_spec in Hs as (pre & ext & -> & He).
    exists ext. split; [exact He|]. rewrite take_suffix; [reflexivity|].
    rewrite <- (length_map canonicalize ext), He, length_map. reflexivity. }
  destruct (ends_with_ci (lit ".xlsx") s) eqn:E1.
  { left. destruct (Hcut _ E1) as (ext & He & Hs). exists ext.
    split; [left; exact He | exact Hs]. }
  destruct (ends_with_ci (lit ".xls") s) eqn:E2.
  { left. destruct (Hcut _ E2) as (ext & He & Hs). exists ext.
    split; [right; left; exact He | exact Hs]. }
  destruct (ends_with_ci (lit ".csv") s) eqn:E3.
  { left. destruct (Hcut _ E3) as (ext & He & Hs). exists ext.
    split; [right; right; exact He | exact Hs]. }
  right. split; [reflexivity|]. intros pre ext Hext ->.
  assert (Hno : forall suffix,
             ends_with_ci suffix (pre ++ ext) = false ->
             map canonicalize ext <> map canonicalize suffix).
  { intros suffix Hf He. rewrite (proj2 (ends_with_ci_spec suffix (pre ++ ext))) in Hf;
      [discriminate|]. exists pre, ext. split; [reflexivity | exact He]. }
  destruct Hext as [He|[He|He]]; [apply (Hno _ E1) | apply (Hno _ E2) | apply (Hno _ E3)];
    exact He.
Qed.

(** C10 as stated fails when nothing is left of the filename: for the
    upload named ".xlsx" and no title field, the title is "Untitled Quiz",
    not the (empty) filename without its extension. *)
Lemma extension_only_filename_untitled :
  let form := {| fields_title := None; files_file := None |} in
  let uploadedFile :=
    {| filepath := lit "/tmp/upload_1"; originalFilename := Some (lit ".xlsx") |} in
  quizTitle_of form uploadedFile <> strip_extension (lit ".xlsx").
Proof. vm_compute. discriminate. Qed.

(** C10 (amended): when the title field is absent or empty, the title is
    the original filename without one trailing .xlsx, .xls or .csv (in any
    case) if that is not empty; it is "Untitled Quiz" when the original
    filename is absent or nothing is left of it. *)
Theorem quizTitle_default form uploadedFile :
  set (fields_title form ≫= head) = false ->
  (forall fname,
      originalFilename uploadedFile = Some fname ->
      ((exists ext, is_extension ext /\ fname = strip_extension fname ++ ext)
       \/ (strip_extension fname = fname
           /\ forall pre ext, is_extension ext -> fname <> pre ++ ext))
      /\ (strip_extension fname <> [] ->
          quizTitle_of form uploadedFile = strip_extension fname)
      /\ (strip_extension fname = [] ->
          quizTitle_of form uploadedFile = lit "Untitled Quiz"))
  /\ (originalFilename uploadedFile = None ->
      quizTitle_of form uploadedFile = lit "Untitled Quiz").
Proof.
  intros Ht. unfold quizTitle_of, or_else. rewrite Ht. split.
  - intros fname ->. split; [apply strip_extension_spec|]. simpl.
    destruct (strip_extension fname) as [|c t]; split; intros Hs;
      try reflexivity; congruence.
  - intros ->. reflexivity.
Qed.

(** C10 (amended), at an upload named "Capitals.XLSX" without a title. *)
Lemma quizTitle_default_witness :
  quizTitle_of {| fields_title := None; files_file := None |}
               {| filepath := lit "/tmp/upload_1";
                  originalFilename := Some (lit "Capitals.XLSX") |}
  = lit "Capitals".
Proof.
  refine (proj1 (proj2 (proj1 (quizTitle_default
            {| fields_title := None; files_file := None |}
            {| filepath := lit "/tmp/upload_1";
               originalFilename := Some (lit "Capitals.XLSX") |} eq_refl)
            (lit "Capitals.XLSX") eq_refl)) _).
  vm_compute. discriminate.
Defined.

(** * Further properties of the modelled code *)

(** ** trim and split *)

Lemma trimStart_split s :
  exists l, s = l ++ trimStart s /\ Forall (fun c => is_space c = true) l.
Proof.
  induction s as [|c s IH]; simpl.
  - exists []. split; [reflexivity | constructor].
  - destruct (is_space c) eqn:Hc.
    + destruct IH as (l & Hs & Hl). exists (c :: l). split.
      * simpl. rewrite <- Hs. reflexivity.
      * constructor; assumption.
    + exists []. split; [reflexivity | constructor].
Qed.

Lemma trimStart_head s :
  match trimStart s with [] => True | c :: _ => is_space c = false end.
Proof.
  induction s as [|c s IH]; simpl; [exact I|].
  destruct (is_space c) eqn:Hc; [exact IH | exact Hc].
Qed.

Lemma trimStart_fixed c s : is_space c = false -> trimStart (c :: s) = c :: s.
Proof. intros Hc. simpl. rewrite Hc. reflexivity. Qed.

Lemma trimStart_snoc s c :
  is_space c = false -> trimStart (s ++ [c]) = trimStart s ++ [c].
Proof.
  intros Hc. induction s as [|a s IH]; simpl; [rewrite Hc; reflexivity|].
  destruct (is_space a); [exact IH | reflexivity].
Qed.

Lemma trimEnd_cons c s : is_space c = false -> trimEnd (c :: s) = c :: trimEnd s.
Proof.
  intros Hc. unfold trimEnd. simpl rev. rewrite trimStart_snoc by assumption.
  rewrite rev_app_distr. reflexivity.
Qed.

Lemma trimEnd_split s :
  exists r, s = trimEnd s ++ r /\ Forall (fun c => is_space c = true) r.
Proof.
  unfold trimEnd. destruct (trimStart_split (rev s)) as (l & Hs & Hl).
  exists (rev l). split.
  - rewrite <- rev_app_distr, <- Hs, rev_involutive. reflexivity.
  - apply List.Forall_rev, Hl.
Qed.

Lemma trim_is_trimmed s : is_trimmed (trim s).
Proof.
  unfold is_trimmed, trim. split.
  - pose proof (trimStart_head s) as Hh. destruct (trimStart s) as [|c t]; [exact I|].
    rewrite trimEnd_cons by assumption. exact Hh.
  - unfold trimEnd. rewrite rev_involutive. apply trimStart_head.
Qed.

Lemma trim_fixed s : is_trimmed s -> trim s = s.
Proof.
  unfold is_trimmed, trim. intros [Hh Hl].
  assert (Hs : trimStart s = s) by (destruct s as [|c s]; [reflexivity | apply trimStart_fixed, Hh]).
  rewrite Hs. unfold trimEnd. destruct (rev s) as [|c t] eqn:Hr.
  - apply (f_equal (@rev N)) in Hr. rewrite rev_involutive in Hr. subst s. reflexivity.
  - rewrite trimStart_fixed by assumption. rewrite <- Hr. apply rev_involutive.
Qed.

(** trim removes whitespace from the two ends and nothing else, its
    result has no whitespace at either end, and trimming twice is
    trimming once. *)
Lemma trim_removes_only_outer_whitespace s :
  (exists l r, s = l ++ trim s ++ r
               /\ Forall (fun c => is_space c = true) l
               /\ Forall (fun c => is_space c = true) r)
  /\ is_trimmed (trim s)
  /\ trim (trim s) = trim s.
Proof.
  split; [|split; [apply trim_is_trimmed | apply trim_fixed, trim_is_trimmed]].
  unfold trim. destruct (trimStart_split s) as (l & Hs & Hl).
  destruct (trimEnd_split (trimStart s)) as (r & Hs' & Hr).
  exists l, r. split; [|split; assumption]. rewrite <- Hs'. exact Hs.
Qed.

Lemma trim_sub s c : In c (trim s) -> In c s.
Proof.
  destruct (trim_removes_only_outer_whitespace s) as [(l & r & Hs & _) _].
  intros Hc. rewrite Hs. apply in_or_app. right. apply in_or_app. left. exact Hc.
Qed.

Lemma js_split_segments sep s :
  js_split sep s <> [] /\ Forall (fun seg => ~ In sep seg) (js_split sep s).
Proof.
  induction s as [|c s [Hne IH]]; simpl.
  - split; [discriminate|]. constructor; [intros []|constructor].
  - destruct (N.eqb_spec c sep) as [->|Hc].
    + split; [discriminate|]. constructor; [intros [] | exact IH].
    + destruct (js_split sep s) as [|seg segs]; [contradiction|].
      split; [discriminate|]. inversion IH; subst. constructor; [|assumption].
      intros [Heq|Hin]; [congruence | contradiction].
Qed.

(** ** More on the Converter *)

Section ConverterMore.
Context {number : Type} `{JsNumber number}.
Implicit Types (r : row number) (qs : list question).

Lemma fold_process_Forall (P : question -> Prop) rows qs :
  (forall r q a, skipped r = false ->
     stringify_trim (row_at r 0) = Some q -> stringify_trim (row_at r 1) = Some a ->
     q <> [] -> a <> [] ->
     forall n, P {| question_number := n; question_text := q; answer := a;
                    accept := accept_of (row_at r 2) |}) ->
  Forall P qs -> Forall P (fold_left process_row rows qs).
Proof.
  intros Hnew. revert qs. induction rows as [|r rows IH]; intros qs Hqs; simpl; [exact Hqs|].
  apply IH. destruct (skipped r) eqn:Hs.
  - rewrite process_row_skipped by assumption. exact Hqs.
  - destruct (process_row_kept qs r Hs) as (q & a & Hq & Ha & Hqn & Han & ->).
    apply Forall_app. split; [exact Hqs|]. constructor; [|constructor].
    apply (Hnew r q a Hs Hq Ha Hqn Han).
Qed.

Lemma stringify_trim_trimmed (c : cell number) s : stringify_trim c = Some s -> is_trimmed s.
Proof.
  unfold stringify_trim. destruct (cell_toString c) as [t|]; simpl; [|discriminate].
  intros [= <-]. apply trim_is_trimmed.
Qed.

(** X1: every question the Converter emits has a text and an answer that
    are non-empty and carry no whitespace at either end. *)
Theorem emitted_texts_trimmed day1 day2 (data : list (row number)) title :
  Forall (fun q => question_text q <> [] /\ is_trimmed (question_text q)
                   /\ answer q <> [] /\ is_trimmed (answer q))
         (all_questions (convertExcelToQuiz day1 day2 data title)).
Proof.
  rewrite convert_all_questions. unfold parse_rows.
  apply fold_process_Forall; [|constructor].
  intros r q a _ Hq Ha Hqn Han n. simpl.
  repeat split; try assumption; eapply stringify_trim_trimmed; eassumption.
Qed.

Lemma accept_of_shape (c : cell number) :
  match accept_of c with
  | None => True
  | Some alts =>
      alts <> []
      /\ Forall (fun alt => alt <> [] /\ is_trimmed alt /\ ~ In comma alt) alts
  end.
Proof.
  unfold accept_of. destruct (truthy c); [|exact I].
  destruct (cell_toString c) as [s|]; [|exact I].
  destruct (alternatives s) as [|alt alts] eqn:Ha; simpl; [exact I|].
  split; [discriminate|]. rewrite <- Ha. apply List.Forall_forall. intros x Hx.
  split; [apply (alternatives_nonempty s), Hx|].
  unfold alternatives in Hx. apply filter_In in Hx as [Hx _].
  apply in_map_iff in Hx as (seg & <- & Hseg). split; [apply trim_is_trimmed|].
  intros Hc. apply trim_sub in Hc.
  destruct (js_split_segments comma s) as [_ Hall].
  rewrite List.Forall_forall in Hall. exact (Hall seg Hseg Hc).
Qed.

(** X2: when an emitted question carries accept, the list is not empty
    and each alternative is non-empty, has no whitespace at either end
    and contains no comma. *)
Theorem emitted_accept_shape day1 day2 (data : list (row number)) title :
  Forall (fun q =>
            match accept q with
            | None => True
            | Some alts =>
                alts <> []
                /\ Forall (fun alt => alt <> [] /\ is_trimmed alt /\ ~ In comma alt) alts
            end)
         (all_questions (convertExcelToQuiz day1 day2 data title)).
Proof.
  rewrite convert_all_questions. unfold parse_rows.
  apply fold_process_Forall; [|constructor].
  intros r q a _ _ _ _ _ n. simpl. apply accept_of_shape.
Qed.

Lemma fold_process_fields rows qs :
  map (fun q => (Some (question_text q), Some (answer q), accept q))
      (fold_left process_row rows qs)
  = map (fun q => (Some (question_text q), Some (answer q), accept q)) qs
    ++ map (fun r => (stringify_trim (row_at r 0), stringify_trim (row_at r 1),
                      accept_of (row_at r 2)))
           (List.filter (fun r => negb (skipped r)) rows).
Proof.
  revert qs. induction rows as [|r rows IH]; intros qs; simpl; [rewrite app_nil_r; reflexivity|].
  rewrite IH. destruct (skipped r) eqn:Hs; simpl.
  - rewrite process_row_skipped by assumption. reflexivity.
  - destruct (process_row_kept qs r Hs) as (q & a & Hq & Ha & _ & _ & ->).
    rewrite map_app, <- app_assoc. simpl. rewrite Hq, Ha. reflexivity.
Qed.

(** X3: the loop is a filter and a map: the emitted questions are, in
    row order, the rows that neither guard skips, each giving its trimmed
    first cell as text, its trimmed second cell as answer and the
    alternatives of its third cell. *)
Theorem questions_follow_kept_rows (rows : list (row number)) :
  map (fun q => (Some (question_text q), Some (answer q), accept q)) (parse_rows rows)
  = map (fun r => (stringify_trim (row_at r 0), stringify_trim (row_at r 1),
                   accept_of (row_at r 2)))
        (List.filter (fun r => negb (skipped r)) rows).
Proof. unfold parse_rows. rewrite fold_process_fields. reflexivity. Qed.

Lemma fold_process_shift rows qs :
  fold_left process_row rows qs
  = qs ++ map (renumber (length qs)) (fold_left process_row rows []).
Proof.
  induction rows as [|r rows IH] using rev_ind; simpl.
  - rewrite app_nil_r. reflexivity.
  - rewrite !fold_left_app. simpl. rewrite IH.
    set (done := fold_left process_row rows []).
    destruct (skipped r) eqn:Hs.
    + rewrite !process_row_skipped by assumption. reflexivity.
    + destruct (process_row_kept (qs ++ map (renumber (length qs)) done) r Hs)
        as (q & a & Hq & Ha & _ & _ & ->).
      destruct (process_row_kept done r Hs) as (q' & a' & Hq' & Ha' & _ & _ & ->).
      rewrite Hq in Hq'. rewrite Ha in Ha'. injection Hq' as <-. injection Ha' as <-.
      rewrite map_app, <- app_assoc. simpl. unfold renumber at 3. simpl.
      rewrite length_app, length_map.
      replace (length qs + length done + 1)%nat with (length done + 1 + length qs)%nat by lia.
      reflexivity.
Qed.

(** X4: rows parsed after other rows give the questions they give on
    their own, numbered on from where the earlier rows stopped. *)
Theorem parse_rows_app (rows1 rows2 : list (row number)) :
  parse_rows (rows1 ++ rows2)
  = parse_rows rows1 ++ map (renumber (length (parse_rows rows1))) (parse_rows rows2).
Proof. unfold parse_rows. rewrite fold_left_app. apply fold_process_shift. Qed.

(** X5: there is at most one question per row after the header: the
    count is bounded by the number of rows from the start index on. *)
Theorem question_count_bounded day1 day2 (data : list (row number)) title :
  (totalQuestions (convertExcelToQuiz day1 day2 data title)
   <= length data - startIndex data)%nat.
Proof.
  unfold totalQuestions. rewrite convert_rounds. simpl.
  unfold parse_rows. rewrite fold_length. simpl.
  etransitivity; [apply filter_length_le|]. rewrite length_drop. reflexivity.
Qed.

End ConverterMore.

(** ** More on the title and the filename *)

(** X6: the title handed to the Converter and the Publisher is never
    empty, and a non-empty first value of the title field is used as it
    is, whatever the file is called. *)
Theorem quizTitle_never_empty form uploadedFile :
  quizTitle_of form uploadedFile <> []
  /\ forall c t more files,
       quizTitle_of {| fields_title := Some ((c :: t) :: more); files_file := files |}
                    uploadedFile
       = c :: t.
Proof.
  split; [|reflexivity].
  unfold quizTitle_of, or_literal, or_else.
  destruct (set (fields_title form ≫= head)) eqn:Ht.
  - destruct (fields_title form ≫= head) as [[|c t]|]; discriminate.
  - destruct (strip_extension <$> originalFilename uploadedFile) as [[|c t]|]; discriminate.
Qed.

Lemma hyphenate_from_length b s : (length (hyphenate_from b s) <= length s)%nat.
Proof.
  revert b. induction s as [|c s IH]; intros b; simpl; [lia|].
  destruct (is_space c).
  - destruct b; simpl; specialize (IH true); lia.
  - simpl. specialize (IH false). lia.
Qed.

(** X7: a derived filename consists of lower-case ASCII letters, digits
    and hyphens only: it holds no path separator, no dot, no whitespace
    and no upper-case letter, and it is no longer than the title. *)
Theorem derive_filename_is_safe t :
  Forall (fun c => (is_lower c || is_digit c || (c =? hyphen)) = true
                   /\ c <> 0x2f /\ c <> 0x5c /\ c <> 0x2e
                   /\ is_space c = false /\ is_upper c = false)
         (derive_filename t)
  /\ (length (derive_filename t) <= length t)%nat.
Proof.
  split.
  - eapply Forall_impl; [apply derive_filename_safe|].
    intros c Hc. simpl in *. unfold safe in Hc. split; [exact Hc|].
    repeat split; try (intros ->; discriminate Hc); char_arith.
  - unfold derive_filename, toLowerCase, hyphenate, strip_unsafe.
    rewrite length_map. etransitivity; [apply hyphenate_from_length|].
    apply filter_length_le.
Qed.

Lemma toLowerCase_hyphenate_from b s :
  toLowerCase (hyphenate_from b s) = hyphenate_from b (toLowerCase s).
Proof.
  unfold toLowerCase. revert b. induction s as [|c s IH]; intros b; simpl; [reflexivity|].
  assert (Hsp : is_space (if is_upper c then c + 0x20 else c) = is_space c).
  { destruct (is_upper c) eqn:Hu; [|reflexivity].
    destruct (is_space c) eqn:Hs; [exfalso; clear IH; char_arith|].
    clear IH Hs. char_arith. }
  rewrite Hsp. destruct (is_space c) eqn:Hs.
  - destruct b; simpl; rewrite IH; reflexivity.
  - simpl. rewrite IH. reflexivity.
Qed.

Lemma lower_canonicalize c :
  (if is_upper (canonicalize c) then canonicalize c + 0x20 else canonicalize c)
  = (if is_upper c then c + 0x20 else c).
Proof.
  unfold canonicalize. destruct (is_lower c) eqn:Hl.
  - replace (is_upper (c - 0x20)) with true by (symmetry; char_arith).
    replace (is_upper c) with false by (symmetry; char_arith).
    unfold is_lower in Hl. apply andb_true_iff in Hl as [Hl _]. apply N.leb_le in Hl. lia.
  - reflexivity.
Qed.

Lemma toLowerCase_canonicalize s : toLowerCase (map canonicalize s) = toLowerCase s.
Proof.
  unfold toLowerCase. rewrite List.map_map. apply map_ext. intros c. apply lower_canonicalize.
Qed.

(** X8: titles that agree up to ASCII letter case once the characters
    outside the class are left out derive to the same filename, hence to
    the same path and the same index key. *)
Theorem derive_filename_collides t1 t2 :
  map canonicalize (strip_unsafe t1) = map canonicalize (strip_unsafe t2) ->
  derive_filename t1 = derive_filename t2
  /\ quizPath_of (derive_filename t1) = quizPath_of (derive_filename t2)
  /\ quizUrl_of (derive_filename t1) = quizUrl_of (derive_filename t2).
Proof.
  intros Heq.
  assert (Hd : derive_filename t1 = derive_filename t2).
  { unfold derive_filename, hyphenate. rewrite !toLowerCase_hyphenate_from.
    rewrite <- (toLowerCase_canonicalize (strip_unsafe t1)), Heq.
    rewrite toLowerCase_canonicalize. reflexivity. }
  rewrite Hd. repeat split; reflexivity.
Qed.

(** X8, at two spellings of one title. *)
Lemma derive_filename_collides_witness :
  derive_filename (lit "Capital Cities (2024)!") = derive_filename (lit "capital cities 2024").
Proof.
  apply (derive_filename_collides (lit "Capital Cities (2024)!") (lit "capital cities 2024")).
  reflexivity.
Defined.

(** ** More on the index update *)

Lemma findIndex_intro {A} (pred : A -> bool) (arr : list A) i x :
  arr !! i = Some x -> pred x = true ->
  (forall j y, (j < i)%nat -> arr !! j = Some y -> pred y = false) ->
  findIndex pred arr = Some i.
Proof.
  revert i. induction arr as [|a arr IH]; intros i Hx Hp Hbefore; [discriminate|].
  destruct i as [|i]; simpl in *.
  - injection Hx as ->. rewrite Hp. reflexivity.
  - rewrite (Hbefore 0%nat a) by (reflexivity || lia).
    rewrite (IH i Hx Hp); [reflexivity|].
    intros j y Hj Hy. apply (Hbefore (S j) y); [lia | exact Hy].
Qed.

Lemma upsert_entry_cases (entry : index_entry) (qs : list index_entry) :
  (exists l1 old l2,
      qs = l1 ++ old :: l2 /\ file old = file entry
      /\ Forall (fun q => file q <> file entry) l1
      /\ upsert_entry entry qs = l1 ++ entry :: l2)
  \/ (Forall (fun q => file q <> file entry) qs /\ upsert_entry entry qs = qs ++ [entry]).
Proof.
  unfold upsert_entry.
  destruct (findIndex (fun q => bool_decide (file q = file entry)) qs) as [i|] eqn:Hf.
  - left. apply findIndex_Some in Hf as [(old & Hold & Hp) Hbefore].
    apply bool_decide_eq_true in Hp.
    exists (take i qs), old, (drop (S i) qs).
    split; [symmetry; apply take_drop_middle, Hold|]. split; [exact Hp|]. split.
    + apply List.Forall_forall. intros q Hq. apply list_elem_of_In in Hq.
      apply list_elem_of_lookup in Hq as [j Hj].
      pose proof (lookup_lt_Some _ _ _ Hj) as Hlt. rewrite length_take in Hlt.
      rewrite lookup_take_lt in Hj by lia.
      apply (Hbefore j q) in Hj; [|lia]. apply bool_decide_eq_false in Hj. exact Hj.
    + apply insert_take_drop. apply lookup_lt_Some in Hold. exact Hold.
  - right. split; [|reflexivity]. apply List.Forall_forall. intros q Hq.
    rewrite findIndex_None in Hf. apply list_elem_of_In in Hq. apply Hf in Hq.
    apply bool_decide_eq_false in Hq. exact Hq.
Qed.

Lemma findIndex_skip {A} (pred : A -> bool) (l1 : list A) x l2 :
  Forall (fun y => pred y = false) l1 -> pred x = true ->
  findIndex pred (l1 ++ x :: l2) = Some (length l1).
Proof.
  intros Hl Hx. induction Hl as [|y l1 Hy Hl IH]; simpl.
  - rewrite Hx. reflexivity.
  - rewrite Hy, IH. reflexivity.
Qed.

Lemma upsert_entry_present (entry : index_entry) l1 l2 :
  Forall (fun q => file q <> file entry) l1 ->
  upsert_entry entry (l1 ++ entry :: l2) = l1 ++ entry :: l2.
Proof.
  intros Hl. unfold upsert_entry. rewrite (findIndex_skip _ l1 entry l2).
  - rewrite insert_app_r_alt by lia. rewrite Nat.sub_diag. reflexivity.
  - eapply Forall_impl; [exact Hl|]. intros q Hq. simpl.
    apply bool_decide_eq_false. exact Hq.
  - apply bool_decide_eq_true. reflexivity.
Qed.

(** X9: the update is idempotent: putting the same entry in twice gives
    the index that putting it in once gives. *)
Theorem upsert_entry_idempotent (entry : index_entry) (qs : list index_entry) :
  upsert_entry entry (upsert_entry entry qs) = upsert_entry entry qs.
Proof.
  destruct (upsert_entry_cases entry qs)
    as [(l1 & old & l2 & _ & _ & Hl1 & ->) | [Hall ->]].
  - apply upsert_entry_present, Hl1.
  - apply (upsert_entry_present entry qs []), Hall.
Qed.

(** X10: the update never adds a second entry for a file: the files of
    the index are unchanged when the entry's file is among them and gain
    that one file at the end otherwise; so an index without duplicate
    files stays without, and the entry is in the result. *)
Theorem upsert_entry_files (entry : index_entry) (qs : list index_entry) :
  (map file (upsert_entry entry qs) = map file qs
   \/ (~ In (file entry) (map file qs)
       /\ map file (upsert_entry entry qs) = map file qs ++ [file entry]))
  /\ (NoDup (map file qs) -> NoDup (map file (upsert_entry entry qs)))
  /\ In entry (upsert_entry entry qs).
Proof.
  destruct (upsert_entry_cases entry qs)
    as [(l1 & old & l2 & -> & Hold & Hl1 & ->) | [Hall ->]].
  - assert (Hm : map file (l1 ++ entry :: l2) = map file (l1 ++ old :: l2)).
    { rewrite !map_app. simpl. rewrite Hold. reflexivity. }
    rewrite Hm. split; [left; reflexivity|]. split; [tauto|].
    apply in_or_app. right. left. reflexivity.
  - assert (Hnot : ~ In (file entry) (map file qs)).
    { intros Hin. apply in_map_iff in Hin as (q & Hq & Hin).
      rewrite List.Forall_forall in Hall. exact (Hall q Hin Hq). }
    rewrite map_app. simpl. split; [right; split; [exact Hnot | reflexivity]|].
    split.
    + intros Hnd. apply NoDup_app. split; [exact Hnd|]. split.
      * intros x Hx Hx'. apply list_elem_of_In in Hx, Hx'. destruct Hx' as [<-|[]].
        exact (Hnot Hx).
      * apply NoDup_singleton.
    + apply in_or_app. right. left. reflexivity.
Qed.

(** X10, at an index of two entries with distinct files. *)
Lemma upsert_entry_files_witness :
  let e1 := {| name := lit "One"; file := lit "/data/quizzes/one.json";
               description := lit "1 round, 3 questions" |} in
  let e2 := {| name := lit "Two"; file := lit "/data/quizzes/two.json";
               description := lit "1 round, 5 questions" |} in
  NoDup (map file (upsert_entry (newEntry (lit "Two") (lit "two") 7) [e1; e2])).
Proof.
  intros e1 e2.
  apply (proj1 (proj2 (upsert_entry_files (newEntry (lit "Two") (lit "two") 7) [e1; e2]))).
  apply NoDup_cons. split.
  - rewrite list_elem_of_In. simpl. intros [Hin|[]]. discriminate Hin.
  - apply NoDup_singleton.
Defined.

(** X11: entries for other files are kept as they are and in the order
    they had. *)
Theorem upsert_entry_keeps_others (entry : index_entry) (qs : list index_entry) :
  List.filter (fun q => negb (bool_decide (file q = file entry))) (upsert_entry entry qs)
  = List.filter (fun q => negb (bool_decide (file q = file entry))) qs.
Proof.
  destruct (upsert_entry_cases entry qs)
    as [(l1 & old & l2 & -> & Hold & Hl1 & ->) | [Hall ->]].
  - rewrite !List.filter_app. simpl.
    rewrite !bool_decide_eq_true_2 by (reflexivity || exact Hold). reflexivity.
  - rewrite List.filter_app. simpl. rewrite bool_decide_eq_true_2 by reflexivity.
    apply app_nil_r.
Qed.

(** ** Counting questions and preparing cards *)

Lemma fold_left_add {A} (f : A -> nat) (l : list A) (n : nat) :
  fold_left (fun acc x => acc + f x)%nat l n = (n + list_sum (map f l))%nat.
Proof.
  revert n. induction l as [|x l IH]; intros n; simpl; [lia|]. rewrite IH. lia.
Qed.

Lemma length_concat_sum {A} (ls : list (list A)) :
  length (concat ls) = list_sum (map (@length A) ls).
Proof. induction ls as [|l ls IH]; simpl; [reflexivity|]. rewrite length_app, IH. reflexivity. Qed.

(** For any document, of however many rounds and players, the count of
    the nested reduce is the number of its questions. *)
Lemma totalQuestions_length (quizData : quiz) :
  totalQuestions quizData = length (all_questions quizData).
Proof.
  unfold totalQuestions, all_questions.
  rewrite (fold_left_add
             (fun rnd => fold_left (fun roundTotal p => roundTotal + length (questions p))%nat
                                   (players rnd) 0%nat)).
  simpl. induction (rounds quizData) as [|rnd rnds IH]; simpl; [reflexivity|].
  rewrite map_app, concat_app, length_app, <- IH.
  rewrite (fold_left_add (fun p => length (questions p))). simpl.
  rewrite length_concat_sum, List.map_map. reflexivity.
Qed.

Lemma fold_left_push {A B} (g : list B -> A -> list B) (f : A -> list B) (l : list A) :
  (forall acc x, g acc x = acc ++ f x) ->
  forall acc, fold_left g l acc = acc ++ concat (map f l).
Proof.
  intros Hg. induction l as [|x l IH]; intros acc; simpl.
  - rewrite app_nil_r. reflexivity.
  - rewrite IH, Hg, <- app_assoc. reflexivity.
Qed.

(** The cards of a document, written as a comprehension. *)
Lemma prepareCards_flat (currentQuiz : quiz) :
  prepareCards currentQuiz
  = concat (map (fun rnd =>
       concat (map (fun p =>
         map (fun q => {| card_round := round_number rnd;
                          card_roundName := round_name rnd;
                          card_player := player_number p;
                          card_question := q |})
             (questions p))
         (players rnd)))
       (rounds currentQuiz)).
Proof.
  unfold prepareCards. rewrite (fold_left_push _ (fun rnd =>
       concat (map (fun p =>
         map (fun q => {| card_round := round_number rnd;
                          card_roundName := round_name rnd;
                          card_player := player_number p;
                          card_question := q |})
             (questions p))
         (players rnd)))); [reflexivity|].
  intros acc rnd. apply fold_left_push. intros acc' p.
  rewrite (fold_left_push _ (fun q => [ {| card_round := round_number rnd;
                                           card_roundName := round_name rnd;
                                           card_player := player_number p;
                                           card_question := q |} ])).
  - f_equal. induction (questions p) as [|q qs IH]; simpl; [reflexivity|].
    rewrite IH. reflexivity.
  - reflexivity.
Qed.

Lemma map_concat_map {A B C} (f : B -> C) (g : A -> list B) (l : list A) :
  map f (concat (map g l)) = concat (map (fun x => map f (g x)) l).
Proof.
  induction l as [|x l IH]; simpl; [reflexivity|]. rewrite map_app, IH. reflexivity.
Qed.

(** X12: the cards of the application are the questions of the document
    in document order, each tagged with the number and name of its round
    and the number of its player; there are as many cards as the
    Publisher counts questions for the index description. *)
Theorem cards_are_the_questions (currentQuiz : quiz) :
  map card_question (prepareCards currentQuiz) = all_questions currentQuiz
  /\ length (prepareCards currentQuiz) = totalQuestions currentQuiz
  /\ Forall (fun c => exists rnd p,
                 In rnd (rounds currentQuiz) /\ In p (players rnd)
                 /\ In (card_question c) (questions p)
                 /\ card_round c = round_number rnd
                 /\ card_roundName c = round_name rnd
                 /\ card_player c = player_number p)
            (prepareCards currentQuiz).
Proof.
  assert (Hq : map card_question (prepareCards currentQuiz) = all_questions currentQuiz).
  { rewrite prepareCards_flat. unfold all_questions.
    induction (rounds currentQuiz) as [|rnd rnds IH]; simpl; [reflexivity|].
    rewrite !map_app, IH, concat_app. f_equal.
    induction (players rnd) as [|p ps IHp]; simpl; [reflexivity|].
    rewrite map_app, IHp, List.map_map. simpl. rewrite map_id. reflexivity. }
  split; [exact Hq|]. split.
  - rewrite totalQuestions_length, <- Hq, length_map. reflexivity.
  - rewrite prepareCards_flat. apply List.Forall_forall. intros c Hc.
    apply in_concat in Hc as (cs & Hcs & Hc).
    apply in_map_iff in Hcs as (rnd & <- & Hrnd).
    apply in_concat in Hc as (cs' & Hcs' & Hc).
    apply in_map_iff in Hcs' as (p & <- & Hp).
    apply in_map_iff in Hc as (q & <- & Hq').
    exists rnd, p. simpl. repeat split; assumption.
Qed.

Section ConverterCards.
Context {number : Type} `{JsNumber number}.

(** X13: for a document made by the Converter every card is a card of
    round 1 and player 1 under the title, and the card at position i
    carries question number i + 1. *)
Theorem converted_cards day1 day2 (data : list (row number)) title :
  let cards := prepareCards (convertExcelToQuiz day1 day2 data title) in
  cards = map (fun q => {| card_round := 1; card_roundName := title;
                           card_player := 1; card_question := q |})
              (all_questions (convertExcelToQuiz day1 day2 data title))
  /\ map (fun c => question_number (card_question c)) cards = seq 1 (length cards).
Proof.
  intros cards. subst cards. rewrite convert_all_questions.
  assert (Hc : prepareCards (convertExcelToQuiz day1 day2 data title)
               = map (fun q => {| card_round := 1; card_roundName := title;
                                  card_player := 1; card_question := q |})
                     (parse_rows (drop (startIndex data) data))).
  { rewrite prepareCards_flat, convert_rounds. simpl. rewrite !app_nil_r. reflexivity. }
  split; [exact Hc|]. rewrite Hc, List.map_map, length_map. simpl.
  apply (fold_numbered _ []). reflexivity.
Qed.

End ConverterCards.

(** ** Navigation in the flashcard application *)

Lemma displayCard_spec a :
  in_deck a ->
  exists a',
    displayCard a = Some a'
    /\ allCards a' = allCards a
    /\ currentCardIndex a' = currentCardIndex a
    /\ buttons_match a'
    /\ (allCards a = [] -> a' = a)
    /\ (allCards a <> [] -> isFlipped a' = false).
Proof.
  intros Hin. unfold displayCard. destruct (allCards a) as [|c cs] eqn:Hc.
  - exists a. simpl. split; [reflexivity|]. split; [first [exact Hc | reflexivity]|].
    split; [reflexivity|].
    split; [intros Hne; rewrite Hc in Hne; contradiction|].
    split; [reflexivity | intros Hne; contradiction].
  - destruct Hin as [Hin|Hin]; [rewrite Hc in Hin; discriminate|].
    rewrite Hc in Hin. simpl length.
    destruct (lookup_lt_is_Some_2 (c :: cs) (currentCardIndex a) Hin) as [x Hx].
    simpl Nat.eqb. cbv iota. rewrite Hx. eexists. split; [reflexivity|]. simpl.
    split; [reflexivity|]. split; [reflexivity|].
    split; [|split; [discriminate | reflexivity]].
    intros _. simpl. split; [reflexivity|]. rewrite ?Hc. simpl length. simpl in Hin.
    match goal with
    | |- ?x = ?y => destruct x eqn:E1, y eqn:E2; try reflexivity
    end.
    + apply Z.eqb_eq in E1. apply Nat.eqb_neq in E2. lia.
    + apply Z.eqb_neq in E1. apply Nat.eqb_eq in E2. lia.
Qed.

Lemma react_keeps_deck a ev :
  in_deck a /\ buttons_match a ->
  exists a', react a ev = Some a' /\ in_deck a' /\ buttons_match a'.
Proof.
  intros [Hin Hb]. destruct ev as [| | |q]; simpl.
  - unfold previousCard. destruct (Nat.ltb_spec 0 (currentCardIndex a)) as [Hlt|Hge];
      [|exists a; tauto].
    destruct (displayCard_spec (set_index a (currentCardIndex a - 1)))
      as (a' & Hd & Hcards & Hidx & Hb' & _).
    { destruct Hin as [Hin|Hin]; [left; exact Hin | right; simpl; lia]. }
    exists a'. split; [exact Hd|]. split; [|exact Hb'].
    simpl in Hcards, Hidx. unfold in_deck. rewrite Hcards, Hidx.
    destruct Hin as [Hin|Hin]; [left; exact Hin | right; lia].
  - unfold nextCard.
    destruct (Z.ltb_spec (Z.of_nat (currentCardIndex a)) (Z.of_nat (length (allCards a)) - 1))
      as [Hlt|Hge]; [|exists a; tauto].
    destruct (displayCard_spec (set_index a (currentCardIndex a + 1)))
      as (a' & Hd & Hcards & Hidx & Hb' & _).
    { right. simpl. lia. }
    exists a'. split; [exact Hd|]. split; [|exact Hb'].
    simpl in Hcards, Hidx. right. rewrite Hcards, Hidx. lia.
  - exists (flipCard a). split; [reflexivity|]. split; [exact Hin | exact Hb].
  - unfold loadQuiz.
    match goal with |- context [displayCard ?s] => destruct (displayCard_spec s)
      as (a' & Hd & Hcards & Hidx & Hb' & _) end.
    { simpl. destruct (prepareCards q); [left; reflexivity | right; simpl; lia]. }
    exists a'. split; [exact Hd|]. split; [|exact Hb'].
    simpl in Hcards, Hidx. unfold in_deck. rewrite Hcards, Hidx.
    destruct (prepareCards q); [left; reflexivity | right; simpl; lia].
Qed.

Lemma run_keeps_deck evs a :
  in_deck a /\ buttons_match a ->
  exists a', run evs a = Some a' /\ in_deck a' /\ buttons_match a'.
Proof.
  revert a. induction evs as [|ev evs IH]; intros a Ha; simpl.
  - exists a. tauto.
  - destruct (react_keeps_deck a ev Ha) as (a1 & -> & Ha1). simpl. apply IH, Ha1.
Qed.

Lemma new_app_in_deck prev next : in_deck (new_app prev next) /\ buttons_match (new_app prev next).
Proof. split; [left; reflexivity | intros Hne; contradiction]. Qed.

(** X14: whatever the user does after the page has loaded (previous,
    next, flip, loading a quiz, in any order and number), no handler
    reads a card that does not exist, and the current index stays inside
    the deck whenever there are cards. *)
Theorem navigation_stays_in_deck prev next (evs : list event) :
  exists a, run evs (new_app prev next) = Some a /\ in_deck a.
Proof.
  destruct (run_keeps_deck evs (new_app prev next) (new_app_in_deck prev next))
    as (a & Hrun & Hin & _).
  exists a. split; assumption.
Qed.

(** X15: once cards are shown, a navigation button is disabled exactly
    when its handler would leave the application as it is: previous on
    the first card, next on the last. *)
Theorem disabled_buttons_do_nothing prev next (evs : list event) a :
  run evs (new_app prev next) = Some a ->
  allCards a <> [] ->
  (prevDisabled a = true <-> previousCard a = Some a)
  /\ (nextDisabled a = true <-> nextCard a = Some a).
Proof.
  intros Hrun Hne.
  destruct (run_keeps_deck evs (new_app prev next) (new_app_in_deck prev next))
    as (a' & Hrun' & Hin & Hb).
  rewrite Hrun in Hrun'. injection Hrun' as <-.
  destruct (Hb Hne) as [Hp Hn]. destruct Hin as [Hin|Hin]; [contradiction|].
  split.
  - rewrite Hp. unfold previousCard.
    destruct (Nat.ltb_spec 0 (currentCardIndex a)) as [Hlt|Hge].
    + replace (currentCardIndex a =? 0)%nat with false by (symmetry; apply Nat.eqb_neq; lia).
      split; [discriminate|]. intros Hd. exfalso.
      destruct (displayCard_spec (set_index a (currentCardIndex a - 1)))
        as (a' & Hd' & _ & Hidx & _); [right; simpl; lia|].
      rewrite Hd in Hd'. injection Hd' as <-. simpl in Hidx. lia.
    + replace (currentCardIndex a =? 0)%nat with true by (symmetry; apply Nat.eqb_eq; lia).
      tauto.
  - rewrite Hn. unfold nextCard.
    destruct (Z.ltb_spec (Z.of_nat (currentCardIndex a)) (Z.of_nat (length (allCards a)) - 1))
      as [Hlt|Hge].
    + replace (S (currentCardIndex a) =? length (allCards a))%nat with false
        by (symmetry; apply Nat.eqb_neq; lia).
      split; [discriminate|]. intros Hd. exfalso.
      destruct (displayCard_spec (set_index a (currentCardIndex a + 1)))
        as (a' & Hd' & _ & Hidx & _); [right; simpl; lia|].
      rewrite Hd in Hd'. injection Hd' as <-. simpl in Hidx. lia.
    + replace (S (currentCardIndex a) =? length (allCards a))%nat with true
        by (symmetry; apply Nat.eqb_eq; lia).
      tauto.
Qed.

(** X15, on the first card of a deck of two. *)
Lemma disabled_buttons_do_nothing_witness :
  let a := {| allCards := prepareCards sample_quiz; currentCardIndex := 0;
              isFlipped := false; prevDisabled := true; nextDisabled := false |} in
  (prevDisabled a = true <-> previousCard a = Some a)
  /\ (nextDisabled a = true <-> nextCard a = Some a).
Proof.
  intros a.
  apply (disabled_buttons_do_nothing false false [Loaded sample_quiz] a).
  - reflexivity.
  - vm_compute. discriminate.
Defined.





(** ** Streaming a question word by word *)

Lemma words_from_not_nil b text : words_from b text <> [].
Proof.
  revert b. induction text as [|c t IH]; intros b; simpl; [discriminate|].
  destruct (is_space c); [destruct b; [apply IH | discriminate]|].
  destruct (words_from false t); discriminate.
Qed.

Lemma words_from_no_space b text :
  Forall (Forall (fun c => is_space c = false)) (words_from b text).
Proof.
  revert b. induction text as [|c t IH]; intros b; simpl.
  - repeat constructor.
  - destruct (is_space c) eqn:Hc.
    + destruct b; [apply IH|]. constructor; [constructor | apply IH].
    + specialize (IH false). destruct (words_from false t) as [|w ws].
      * repeat constructor. exact Hc.
      * inversion IH; subst. constructor; [constructor|]; assumption.
Qed.

Lemma words_from_letters b text :
  List.filter (fun c => negb (is_space c)) (concat (words_from b text))
  = List.filter (fun c => negb (is_space c)) text.
Proof.
  revert b. induction text as [|c t IH]; intros b; simpl; [reflexivity|].
  destruct (is_space c) eqn:Hc; simpl.
  - destruct b; simpl; apply IH.
  - specialize (IH false). destruct (words_from false t) as [|w ws] eqn:Hw.
    + exfalso. exact (words_from_not_nil false t Hw).
    + simpl in *. rewrite Hc. simpl. rewrite IH. reflexivity.
Qed.

Lemma stream_nodes_letters index ws :
  List.filter (fun c => negb (is_space c)) (concat (map node_text (stream_nodes index ws)))
  = List.filter (fun c => negb (is_space c)) (concat ws).
Proof.
  revert index. induction ws as [|w ws IH]; intros index; [reflexivity|].
  destruct ws as [|w' ws].
  - reflexivity.
  - change (stream_nodes index (w :: w' :: ws))
      with (WordSpan w (index * (60 * 1000 / 400)) :: TextNode (lit " ")
            :: stream_nodes (S index) (w' :: ws)).
    cbn [map concat node_text]. rewrite !List.filter_app, IH.
    cbn [concat]. rewrite List.filter_app. reflexivity.
Qed.

Lemma stream_nodes_spans index ws :
  omap (fun n => match n with
                 | WordSpan w delay => Some (w, delay)
                 | TextNode _ => None
                 end) (stream_nodes index ws)
  = imap (fun j w => (w, (index + j) * 150)%nat) ws.
Proof.
  revert index. induction ws as [|w ws IH]; intros index; [reflexivity|].
  rewrite imap_cons. destruct ws as [|w' ws].
  - simpl. rewrite Nat.add_0_r. reflexivity.
  - change (stream_nodes index (w :: w' :: ws))
      with (WordSpan w (index * (60 * 1000 / 400)) :: TextNode (lit " ")
            :: stream_nodes (S index) (w' :: ws)).
    cbn [omap list_omap]. rewrite IH. rewrite Nat.add_0_r.
    change (60 * 1000 / 400)%nat with 150%nat. f_equal.
    apply imap_ext. intros j x _. simpl. f_equal. lia.
Qed.

Lemma words_from_ends b text :
  is_space (List.last text 0x20) = false ->
  match words_from b text with
  | [] => False
  | w :: ws =>
      Forall (fun w' => w' <> []) ws
      /\ (b = true \/ match text with c :: _ => is_space c = false | [] => False end ->
          w <> [])
  end.
Proof.
  revert b. induction text as [|c t IH]; intros b Hlast; [discriminate Hlast|].
  simpl words_from. destruct (is_space c) eqn:Hc.
  - destruct t as [|c' t']; [simpl in Hlast; congruence|].
    change (List.last (c :: c' :: t') 0x20) with (List.last (c' :: t') 0x20) in Hlast.
    specialize (IH true Hlast).
    destruct (words_from true (c' :: t')) as [|w ws]; [contradiction|].
    destruct IH as [Hws Hw]. destruct b.
    + split; [exact Hws | intros _; apply Hw; left; reflexivity].
    + split; [constructor; [apply Hw; left; reflexivity | exact Hws]|].
      intros [Hb|Hb]; congruence.
  - destruct t as [|c' t'].
    + simpl. split; [constructor | discriminate].
    + change (List.last (c :: c' :: t') 0x20) with (List.last (c' :: t') 0x20) in Hlast.
      specialize (IH false Hlast).
      destruct (words_from false (c' :: t')) as [|w ws]; [contradiction|].
      destruct IH as [Hws _]. split; [exact Hws | discriminate].
Qed.

Lemma trimmed_words text :
  is_trimmed text -> text <> [] -> Forall (fun w => w <> []) (words text).
Proof.
  intros [Hhead Hlast] Hne. unfold words.
  assert (Hl : is_space (List.last text 0x20) = false).
  { destruct (rev text) as [|c r] eqn:Hr.
    - apply (f_equal (@rev N)) in Hr. rewrite rev_involutive in Hr. contradiction.
    - apply (f_equal (@rev N)) in Hr. rewrite rev_involutive in Hr. subst text.
      simpl. rewrite List.last_last. exact Hlast. }
  pose proof (words_from_ends false text Hl) as Hw.
  destruct (words_from false text) as [|w ws]; [contradiction|].
  destruct Hw as [Hws Hw]. constructor; [|exact Hws].
  apply Hw. right. destruct text; [contradiction | exact Hhead].
Qed.

(** X17: streamText makes one span per word of the text, the span at
    position j delayed by 150 j milliseconds; no word holds whitespace;
    and the characters shown, whitespace aside, are those of the text in
    the same order. *)
Theorem streamText_words (text : jsstring) :
  omap (fun n => match n with
                 | WordSpan w delay => Some (w, delay)
                 | TextNode _ => None
                 end) (streamText text)
  = imap (fun j w => (w, j * 150)%nat) (words text)
  /\ Forall (Forall (fun c => is_space c = false)) (words text)
  /\ List.filter (fun c => negb (is_space c)) (concat (map node_text (streamText text)))
     = List.filter (fun c => negb (is_space c)) text.
Proof.
  unfold streamText, words. split; [apply (stream_nodes_spans 0)|].
  split; [apply words_from_no_space|].
  rewrite stream_nodes_letters. apply words_from_letters.
Qed.

Section ConverterStream.
Context {number : Type} `{JsNumber number}.

(** X18: the text of a question made by the Converter streams without
    empty words: every span holds at least one character and no
    whitespace. *)
Theorem converted_text_streams day1 day2 (data : list (row number)) title :
  Forall (fun q =>
            Forall (fun w => w <> [] /\ Forall (fun c => is_space c = false) w)
                   (words (question_text q)))
         (all_questions (convertExcelToQuiz day1 day2 data title)).
Proof.
  rewrite convert_all_questions. unfold parse_rows.
  apply fold_process_Forall; [|constructor].
  intros r q a _ Hq _ Hqn _ n. simpl.
  pose proof (trimmed_words q (stringify_trim_trimmed _ _ Hq) Hqn) as Hne.
  pose proof (words_from_no_space false q) as Hns. fold (words q) in Hns.
  rewrite List.Forall_forall in *. intros w Hw. split; [apply Hne | apply Hns]; exact Hw.
Qed.

End ConverterStream.

(** ** More on the publish sequence *)

Ltac publish_cases w :=
  unfold saveQuizToRepo, mbind, io_bind, bind, try_catch, request, request_both,
    mret, io_ret, ret, throw;
  repeat match goal with
         | |- context [octokit w ?l ?c] =>
             let E := fresh "E" in destruct (octokit w l c) eqn:E; cbn iota beta
         | |- context [parse_index w ?s] =>
             let P := fresh "P" in destruct (parse_index w s) eqn:P; cbn iota beta
         end.

(** What a completed run tells: the configuration was present, eight
    requests were sent, and the path returned is the derived one. *)
Lemma saveQuizToRepo_success_inv e w quizData quizTitle res log :
  saveQuizToRepo e w quizData quizTitle [] = (inr res, log) ->
  set (owner_of e) = true /\ set (repo_of e) = true
  /\ length log = 8%nat
  /\ quizPath res = quizPath_of (derive_filename quizTitle)
  /\ quizUrl res = quizUrl_of (derive_filename quizTitle).
Proof.
  unfold owner_of, repo_of, saveQuizToRepo. cbv zeta.
  destruct (or_else (GITHUB_OWNER e) (VERCEL_GIT_REPO_OWNER e)) as [[|o owner]|];
    destruct (or_else (GITHUB_REPO e) (VERCEL_GIT_REPO_SLUG e)) as [[|r repo]|];
    try (unfold throw; intros Hrun; discriminate Hrun).
  publish_cases w; intros [= <- <-]; repeat split; reflexivity.
Qed.

(** X19: the branch is moved by the last request only: an UpdateRef in
    the log of a run is its eighth and last request, and when the run
    throws the store rejected it with that error; hence a run that throws
    leaves the branch where it was. *)
Theorem branch_moved_last e w quizData quizTitle r log :
  saveQuizToRepo e w quizData quizTitle [] = (r, log) ->
  forall i c,
    log !! i = Some c -> is_UpdateRef c = true ->
    i = 7%nat
    /\ exists front,
         log = front ++ [c] /\ length front = 7%nat
         /\ forall err, r = inl err -> octokit w front c = inl err.
Proof.
  unfold saveQuizToRepo. cbv zeta.
  destruct (or_else (GITHUB_OWNER e) (VERCEL_GIT_REPO_OWNER e)) as [[|o owner]|];
    destruct (or_else (GITHUB_REPO e) (VERCEL_GIT_REPO_SLUG e)) as [[|rp repo]|];
    try (unfold throw; intros [= <- <-] k c Hi; discriminate Hi).
  publish_cases w; intros [= <- <-] k c Hi Hu;
    repeat match type of Hi with
           | _ !! ?j = Some _ =>
               is_var j; destruct j; [injection Hi as <-; try discriminate Hu | simpl in Hi]
           end;
    try discriminate Hi;
    (split; [reflexivity|]);
    match goal with
    | E : octokit w ?l (UpdateRef _ _ _ _) = _ |- _ =>
        exists l; split; [reflexivity|]; split; [reflexivity|];
        intros err Herr; first [discriminate Herr | injection Herr as <-; exact E]
    end.
Qed.

(** X19, with a store that refuses the update. *)
Lemma branch_moved_last_witness :
  exists front,
    length front = 7%nat
    /\ octokit world_ref_rejected front
         (UpdateRef (lit "owner") (lit "quiz") (lit "heads/main") (lit "0a1b2c"))
       = inl (Throw (lit "Update is not a fast forward")).
Proof.
  destruct (branch_moved_last env_configured world_ref_rejected sample_quiz (lit "Demo")
              (inl (Throw (lit "Update is not a fast forward")))
              (snd (saveQuizToRepo env_configured world_ref_rejected sample_quiz (lit "Demo") []))
              eq_refl 7%nat
              (UpdateRef (lit "owner") (lit "quiz") (lit "heads/main") (lit "0a1b2c"))
              eq_refl eq_refl)
    as (_ & front & _ & Hlen & Herr).
  exists front. split; [exact Hlen|]. apply Herr. reflexivity.
Defined.

Ltac answer_but_content Hall s :=
  match goal with
  | |- context [octokit ?w ?l ?c] =>
      let E := fresh "E" s in
      destruct (Hall l c eq_refl) as [s E]; rewrite E
  end.

(** X20: when the index file cannot be fetched, or its content does not
    parse, the run goes on with an empty index: if the other requests
    are answered it completes, and the index it commits holds the new
    entry and nothing else. *)
Theorem index_restarts_on_fetch_failure e w quizData quizTitle :
  set (owner_of e) = true -> set (repo_of e) = true ->
  (forall log c, is_GetContent c = false -> exists s, octokit w log c = inr s) ->
  (forall log c content, octokit w log c = inr content -> is_GetContent c = true ->
                         parse_index w content = ParseThrows) ->
  exists owner repo commit0 tree0 blob1 blob2 tree1 commit1,
    let filename := derive_filename quizTitle in
    let branch := or_literal (GITHUB_BRANCH e) (lit "main") in
    saveQuizToRepo e w quizData quizTitle []
    = (inr {| quizPath := quizPath_of filename; commitSha := commit1;
              quizUrl := quizUrl_of filename |},
       [ GetRef owner repo (lit "heads/" ++ branch);
         GetCommit owner repo commit0;
         GetContent owner repo index_path branch;
         CreateBlob owner repo (QuizBlob quizData);
         CreateBlob owner repo
           (IndexBlob {| quizzes := [newEntry quizTitle filename (totalQuestions quizData)] |});
         CreateTree owner repo tree0
           [ {| te_path := quizPath_of filename; te_mode := lit "100644";
                te_type := lit "blob"; te_sha := blob1 |};
             {| te_path := index_path; te_mode := lit "100644";
                te_type := lit "blob"; te_sha := blob2 |} ];
         CreateCommit owner repo (lit "Add quiz: " ++ quizTitle) tree1 [commit0];
         UpdateRef owner repo (lit "heads/" ++ branch) commit1 ]).
Proof.
  unfold owner_of, repo_of, saveQuizToRepo. intros Ho Hr Hall Hfail.
  destruct (or_else (GITHUB_OWNER e) (VERCEL_GIT_REPO_OWNER e)) as [[|o owner]|];
    try discriminate.
  destruct (or_else (GITHUB_REPO e) (VERCEL_GIT_REPO_SLUG e)) as [[|r repo]|];
    try discriminate.
  unfold mbind, io_bind, bind, try_catch, request, request_both, mret, io_ret, ret, throw.
  answer_but_content Hall commit0. answer_but_content Hall tree0.
  match goal with
  | |- context [octokit w ?l (GetContent ?a ?b ?c ?d)] =>
      pose proof (Hfail l (GetContent a b c d)) as Hf;
      destruct (octokit w l (GetContent a b c d)) as [err|content]
  end;
    [| rewrite (Hf content eq_refl eq_refl)];
    cbn iota beta;
    answer_but_content Hall blob1; answer_but_content Hall blob2;
    answer_but_content Hall tree1; answer_but_content Hall commit1;
    answer_but_content Hall ref1;
    exists (o :: owner), (r :: repo), commit0, tree0, blob1, blob2, tree1, commit1;
    reflexivity.
Qed.

(** X20, with a store that has no index file yet. *)
Lemma index_restarts_on_fetch_failure_witness :
  exists log,
    snd (saveQuizToRepo env_configured world_up sample_quiz (lit "Demo") []) = log
    /\ In (CreateBlob (lit "owner") (lit "quiz")
             (IndexBlob {| quizzes := [newEntry (lit "Demo") (lit "demo") 2] |})) log.
Proof.
  destruct (index_restarts_on_fetch_failure env_configured world_up sample_quiz (lit "Demo"))
    as (owner & repo & commit0 & tree0 & blob1 & blob2 & tree1 & commit1 & Hrun).
  - reflexivity.
  - reflexivity.
  - intros log c _. eexists. reflexivity.
  - intros log c content _ _. reflexivity.
  - eexists. split; [reflexivity|]. vm_compute. do 4 right. left. reflexivity.
Defined.

(** X21: when the fetched index parses to something without a quizzes
    array the run throws after its three reads: nothing has been created
    in the store and the branch has not been touched. *)
Theorem malformed_index_aborts e w quizData quizTitle :
  set (owner_of e) = true -> set (repo_of e) = true ->
  (forall log c, exists s, octokit w log c = inr s) ->
  (forall s, parse_index w s = NoQuizzesArray) ->
  exists err owner repo commit0,
    let branch := or_literal (GITHUB_BRANCH e) (lit "main") in
    saveQuizToRepo e w quizData quizTitle []
    = (inl err,
       [ GetRef owner repo (lit "heads/" ++ branch);
         GetCommit owner repo commit0;
         GetContent owner repo index_path branch ]).
Proof.
  unfold owner_of, repo_of, saveQuizToRepo. intros Ho Hr Hall Hparse.
  destruct (or_else (GITHUB_OWNER e) (VERCEL_GIT_REPO_OWNER e)) as [[|o owner]|];
    try discriminate.
  destruct (or_else (GITHUB_REPO e) (VERCEL_GIT_REPO_SLUG e)) as [[|r repo]|];
    try discriminate.
  unfold mbind, io_bind, bind, try_catch, request, request_both, mret, io_ret, ret, throw.
  answer Hall commit0. answer Hall tree0. answer Hall content.
  rewrite Hparse. cbn iota beta.
  eexists _, (o :: owner), (r :: repo), commit0. reflexivity.
Qed.

(** X21, with a store whose index file holds no quizzes array. *)
Lemma malformed_index_aborts_witness :
  exists err log,
    saveQuizToRepo env_configured world_bad_index sample_quiz (lit "Demo") [] = (inl err, log)
    /\ length log = 3%nat.
Proof.
  destruct (malformed_index_aborts env_configured world_bad_index sample_quiz (lit "Demo"))
    as (err & owner & repo & commit0 & Hrun).
  - reflexivity.
  - reflexivity.
  - intros log c. eexists. reflexivity.
  - intros s. reflexivity.
  - exists err. eexists. split; [exact Hrun | reflexivity].
Defined.

(** ** More on the handlers *)

Section HandlerMore.
Context {number : Type} `{JsNumber number}.
Implicit Types (readSheet : jsstring -> exn + list (row number)).

(** X22: every response of the handler is one of two kinds.  An error
    response has status 405, 400 or 500, carries no quiz, and no request
    was sent to the store.  A quiz response has status 200 and success
    true, its quizPath is set exactly when saved is true, its message is
    the one for that value of saved; saved is true only with the token,
    the owner and the repository configured and after all eight requests,
    and without the token no request is sent. *)
Theorem handler_response_shape e w readSheet day1 day2 req :
  match handler e w readSheet day1 day2 req with
  | ({| status := st; json := ErrorBody _ _ |}, log) =>
      (st = 405 \/ st = 400 \/ st = 500)%nat /\ log = []
  | ({| status := st; json := QuizBody success _ saved quizFilePath message |}, log) =>
      st = 200%nat /\ success = true
      /\ (saved = true <-> quizFilePath <> None)
      /\ message = saved_message saved
      /\ (saved = true ->
          set (GITHUB_TOKEN e) = true /\ set (owner_of e) = true /\ set (repo_of e) = true
          /\ length log = 8%nat)
      /\ (set (GITHUB_TOKEN e) = false -> log = [])
  end.
Proof.
  unfold handler. destruct (negb (bool_decide (method req = lit "POST"))).
  { split; [left; reflexivity | reflexivity]. }
  destruct (form_parse req) as [err|form].
  { split; [right; right; reflexivity | reflexivity]. }
  destruct (files_file form ≫= head) as [uploadedFile|].
  2: { split; [right; left; reflexivity | reflexivity]. }
  destruct (readSheet (filepath uploadedFile)) as [err|data].
  { split; [right; right; reflexivity | reflexivity]. }
  cbv zeta. destruct (set (GITHUB_TOKEN e)) eqn:Ht.
  - destruct (saveQuizToRepo e w _ _ []) as [[err|res] log] eqn:Hsave.
    + repeat split; try reflexivity; try discriminate. intros Hp. contradiction.
    + destruct (saveQuizToRepo_success_inv _ _ _ _ _ _ Hsave) as (Ho & Hr & Hlen & _).
      repeat split; try reflexivity; try discriminate; assumption.
  - repeat split; try reflexivity; try discriminate. intros Hp. contradiction.
Qed.

(** X23: with the token and the repository configured and a store that
    answers every request, an upload that converts is published: the
    response has saved true, the derived path and the message of success,
    after the eight requests of the sequence. *)
Theorem handler_publishes
    e w readSheet day1 day2 req form uploadedFile data :
  method req = lit "POST" ->
  form_parse req = inr form ->
  files_file form ≫= head = Some uploadedFile ->
  readSheet (filepath uploadedFile) = inr data ->
  set (GITHUB_TOKEN e) = true ->
  set (owner_of e) = true -> set (repo_of e) = true ->
  (forall log c, exists s, octokit w log c = inr s) ->
  (forall s, parse_index w s <> NoQuizzesArray) ->
  exists log,
    handler e w readSheet day1 day2 req
    = ({| status := 200;
          json := QuizBody true
                    (convertExcelToQuiz day1 day2 data (quizTitle_of form uploadedFile))
                    true
                    (Some (quizPath_of (derive_filename (quizTitle_of form uploadedFile))))
                    (lit "Quiz saved to repository successfully") |},
       log)
    /\ length log = 8%nat.
Proof.
  intros Hm Hf Hu Hs Ht Ho Hr Hall Hparse.
  rewrite (handler_converted e w readSheet day1 day2 req form uploadedFile data Hm Hf Hu Hs).
  cbv zeta. rewrite Ht.
  destruct (saveQuizToRepo_completes e w
              (convertExcelToQuiz day1 day2 data (quizTitle_of form uploadedFile))
              (quizTitle_of form uploadedFile) Ho Hr Hall Hparse)
    as (content & owner & repo & commit0 & tree0 & blob1 & blob2 & tree1 & commit1
        & _ & Hrun).
  cbv zeta in Hrun. rewrite Hrun. eexists. split; reflexivity.
Qed.

(** X24: the parse-only handler and the publishing handler answer every
    request with the same status, the same error or the same converted
    document; they differ only in the fields about saving. *)
Theorem handlers_agree e w readSheet day1 day2 req :
  let r0 := handler_parse_only readSheet day1 day2 req in
  let r1 := fst (handler e w readSheet day1 day2 req) in
  parsed_status r0 = status r1
  /\ match parsed_json r0, json r1 with
     | ParseFailure error0 message0, ErrorBody error1 message1 =>
         error0 = error1 /\ message0 = message1
     | Parsed success0 quiz0 _, QuizBody success1 quiz1 _ _ _ =>
         success0 = success1 /\ quiz0 = quiz1
     | _, _ => False
     end.
Proof.
  unfold handler_parse_only, handler.
  destruct (negb (bool_decide (method req = lit "POST"))); [repeat split|].
  destruct (form_parse req) as [err|form]; [repeat split|].
  destruct (files_file form ≫= head) as [uploadedFile|]; [|repeat split].
  destruct (readSheet (filepath uploadedFile)) as [err|data]; [repeat split|].
  cbv zeta. destruct (set (GITHUB_TOKEN e)); [|repeat split].
  destruct (saveQuizToRepo e w _ _ []) as [[err|res] log]; repeat split.
Qed.

End HandlerMore.

(** X23, with the sample upload and a store that answers. *)
Lemma handler_publishes_witness :
  exists log,
    handler env_configured world_up sample_sheet (lit "2024-05-01") (lit "2024-05-01")
            sample_request
    = ({| status := 200;
          json := QuizBody true sample_quiz true
                    (Some (lit "public/data/quizzes/demo.json"))
                    (lit "Quiz saved to repository successfully") |},
       log)
    /\ length log = 8%nat.
Proof.
  refine (handler_publishes env_configured world_up sample_sheet
            (lit "2024-05-01") (lit "2024-05-01") sample_request sample_form sample_upload
            sample_rows eq_refl eq_refl eq_refl eq_refl eq_refl eq_refl eq_refl _ _).
  - intros log c. eexists. reflexivity.
  - intros s. discriminate.
Defined.

(** ** Choosing a voice *)

Section VoiceFacts.
Variable lower : jsstring -> jsstring.

Lemma pick_voice_from voices prefs v :
  (forall u, In (inr (Some u)) prefs -> In u voices) ->
  pick_voice voices prefs = Some v -> In v voices.
Proof.
  induction prefs as [|[voiceName|[u|]] prefs IH]; simpl; intros Hfound Hpick.
  - destruct voices as [|v0 voices]; [discriminate|]. injection Hpick as <-. left. reflexivity.
  - destruct (List.find _ voices) as [u|] eqn:Hf.
    + injection Hpick as <-. apply find_some in Hf. tauto.
    + apply IH; [|exact Hpick]. intros u Hu. apply Hfound. right. exact Hu.
  - injection Hpick as <-. apply Hfound. left. reflexivity.
  - apply IH; [|exact Hpick]. intros u Hu. apply Hfound. right. exact Hu.
Qed.

Lemma pick_voice_names voices names rest :
  (forall u, In u voices -> ~ In (voice_name u) names) ->
  pick_voice voices (map inl names ++ rest) = pick_voice voices rest.
Proof.
  intros Hnone. induction names as [|voiceName names IH]; simpl; [reflexivity|].
  destruct (List.find _ voices) as [u|] eqn:Hf.
  - apply find_some in Hf as [Hu Hname]. apply bool_decide_eq_true in Hname.
    exfalso. apply (Hnone u Hu). left. symmetry. exact Hname.
  - apply IH. intros u Hu Hin. apply (Hnone u Hu). right. exact Hin.
Qed.

(** X25: selectBestVoice leaves a voice selected whenever the browser
    offers any, and the one selected is among those offered; when none of
    them bears a preferred name and some voice is English, the selected
    voice is English. *)
Theorem selected_voice_is_offered (voices : list voice) :
  (selectBestVoice lower voices = None <-> voices = [])
  /\ forall v,
       selectBestVoice lower voices = Some v ->
       In v voices
       /\ ((forall u, In u voices -> ~ In (voice_name u) preferred_names) ->
           (exists u, In u voices /\ english u = true) ->
           english v = true).
Proof.
  assert (Hin : forall v, selectBestVoice lower voices = Some v -> In v voices).
  { intros v. unfold selectBestVoice. apply pick_voice_from. intros u Hu.
    apply in_app_or in Hu as [Hu|Hu].
    - apply in_map_iff in Hu as (x & Hx & _). discriminate Hx.
    - destruct Hu as [Hu|[Hu|[]]]; injection Hu as Hu; apply find_some in Hu; tauto. }
  split.
  - split.
    + intros Hnone. destruct voices as [|v0 voices]; [reflexivity|]. exfalso.
      unfold selectBestVoice in Hnone. revert Hnone.
      generalize (map (@inl jsstring (option voice)) preferred_names
                  ++ [inr (List.find (english_male lower) (v0 :: voices));
                      inr (List.find english (v0 :: voices))]).
      intros prefs. induction prefs as [|[voiceName|[u|]] prefs IH]; simpl; try discriminate.
      * destruct (if bool_decide (voice_name v0 = voiceName) then Some v0
                  else List.find (fun v => bool_decide (voice_name v = voiceName)) voices);
          [discriminate | exact IH].
      * exact IH.
    + intros ->. reflexivity.
  - intros v Hv. split; [apply Hin, Hv|]. intros Hnames (u & Hu & Hen).
    unfold selectBestVoice in Hv. rewrite pick_voice_names in Hv by exact Hnames.
    simpl in Hv. destruct (List.find (english_male lower) voices) as [m|] eqn:Hm.
    + injection Hv as <-. apply find_some in Hm as [_ Hm].
      unfold english_male in Hm. apply andb_true_iff in Hm. unfold english. tauto.
    + destruct (List.find english voices) as [x|] eqn:Hx.
      * injection Hv as <-. apply find_some in Hx. tauto.
      * exfalso. pose proof (find_none _ _ Hx u Hu) as Hno. congruence.
Qed.

End VoiceFacts.

(** X25, with three voices of which the second is the first English one. *)
Lemma selected_voice_is_offered_witness :
  english {| voice_name := lit "Samantha"; voice_lang := lit "en-US" |} = true.
Proof.
  apply (proj2 (selected_voice_is_offered toLowerCase sample_voices)
           {| voice_name := lit "Samantha"; voice_lang := lit "en-US" |} eq_refl).
  - intros u Hu Hin. simpl in Hu.
    destruct Hu as [<-|[<-|[<-|[]]]]; simpl in Hin;
      repeat (destruct Hin as [Hin|Hin]; [discriminate Hin|]); exact Hin.
  - exists {| voice_name := lit "Fred"; voice_lang := lit "en-US" |}.
    split; [right; right; left; reflexivity | reflexivity].
Defined.

(** X22, at the sample upload published to a store that answers. *)
Lemma handler_response_shape_witness :
  set (GITHUB_TOKEN env_configured) = true
  /\ length (snd (handler env_configured world_up sample_sheet
                          (lit "2024-05-01") (lit "2024-05-01") sample_request)) = 8%nat.
Proof.
  pose proof (handler_response_shape env_configured world_up sample_sheet
                (lit "2024-05-01") (lit "2024-05-01") sample_request) as Hshape.
  vm_compute in Hshape.
  destruct Hshape as (_ & _ & _ & _ & Hsaved & _).
  destruct (Hsaved eq_refl) as (Htoken & _ & _ & Hlen).
  split; [exact Htoken | exact Hlen].
Defined.
